(** * codeSmol: the agent loop, the tool registry and the protocol adapter

    A shallow embedding of [src/codeSmol.ts].  The TypeScript program is a
    REPL that sends a conversation history to a language-model provider,
    runs the tools the model asks for and feeds the results back.

    Conventions of the embedding:
    - JavaScript strings are [string]; a property that may be [undefined]
      is an [option]; a value of type [any] that travels through JSON is a
      [json];
    - a function that may throw returns a [result]: [Ok v] or [Throw msg],
      where [msg] is the [message] of the thrown [Error];
    - what the program cannot decide by itself (the file system, the glob
      package and the regular-expression engine, child processes,
      [JSON.stringify] and [JSON.parse]) is a field of the class
      [Platform];
    - the HTTP exchange and the terminal are scripts: the list of replies
      the transport will give and the list of lines the user will type,
      as [getUserInput] returns them;
    - the state of [main] is its history, the world outside and a trace
      that records, in program order, what was printed, requested, run
      and pushed;
    - parsed replies and content blocks have the fields the program reads,
      with the types [interface ContentBlock] gives them. *)

From Stdlib Require Import String Ascii List ZArith Lia Bool DecimalString.
From stdpp Require Import base gmap strings.
Import ListNotations.

Set Warnings "-register-all".

Local Open Scope string_scope.
Local Open Scope list_scope.

(** ** JavaScript string primitives *)

Module Js.

(** [s.startsWith(p)] *)
Fixpoint startsWith (s p : string) {struct p} : bool :=
  match p, s with
  | EmptyString, _ => true
  | String a p', String b s' => Ascii.eqb a b && startsWith s' p'
  | String _ _, EmptyString => false
  end.

(** [s.endsWith(p)] *)
Fixpoint endsWith (s p : string) : bool :=
  String.eqb s p ||
  match s with
  | EmptyString => false
  | String _ s' => endsWith s' p
  end.

(** [s.indexOf(p)], [None] standing for [-1] *)
Fixpoint indexOf (s p : string) : option nat :=
  if startsWith s p then Some 0
  else match s with
       | EmptyString => None
       | String _ s' => option_map S (indexOf s' p)
       end.

(** [s.includes(p)] *)
Definition includes (s p : string) : bool :=
  match indexOf s p with Some _ => true | None => false end.

(** [s.slice(n)] for [0 <= n] *)
Fixpoint drop (n : nat) (s : string) : string :=
  match n, s with
  | S k, String _ s' => drop k s'
  | _, _ => s
  end.

(** [s.slice(0, n)] for [0 <= n] *)
Fixpoint take (n : nat) (s : string) : string :=
  match n, s with
  | S k, String c s' => String c (take k s')
  | _, _ => EmptyString
  end.

(** [String(n)] for an integer *)
Definition string_of_Z (z : Z) : string := NilZero.string_of_int (Z.to_int z).
Definition string_of_nat (n : nat) : string := string_of_Z (Z.of_nat n).

(** [s.split(sep)] for a non-empty separator: [skip] characters of a
    separator that has just been matched are still to be passed over, [cur]
    is the piece being collected. *)
Fixpoint split_go (sep s : string) (skip : nat) (cur : string) : list string :=
  match s with
  | EmptyString => [cur]
  | String c s' =>
      match skip with
      | S k => split_go sep s' k cur
      | O =>
          if startsWith s sep
          then cur :: split_go sep s' (String.length sep - 1) EmptyString
          else split_go sep s' 0 (cur ++ String c EmptyString)
      end
  end.

Fixpoint chars (s : string) : list string :=
  match s with
  | EmptyString => []
  | String c s' => String c EmptyString :: chars s'
  end.

(** [s.split(sep)]: the empty separator splits into characters. *)
Definition split (s sep : string) : list string :=
  match sep with
  | EmptyString => chars s
  | _ => split_go sep s 0 EmptyString
  end.

(** [l.join(sep)] *)
Fixpoint join (l : list string) (sep : string) : string :=
  match l with
  | [] => EmptyString
  | [x] => x
  | x :: rest => x ++ sep ++ join rest sep
  end.

(** The number of matches of a global regular expression that matches the
    literal [p]: non-overlapping occurrences from the left; the empty
    pattern matches once at every position, the end included. *)
Fixpoint count_go (p s : string) (skip : nat) : nat :=
  match s with
  | EmptyString => 0
  | String _ s' =>
      match skip with
      | S k => count_go p s' k
      | O =>
          if startsWith s p
          then S (count_go p s' (String.length p - 1))
          else count_go p s' 0
      end
  end.

Definition match_count (s p : string) : nat :=
  match p with
  | EmptyString => S (String.length s)
  | _ => count_go p s 0
  end.

(** The replacement text of [String.prototype.replace] with a string
    pattern (ECMAScript's GetSubstitution without capture groups): [$$] is a
    dollar, [$&] the match, [$`] the text before it, [$'] the text after
    it; any other dollar stands for itself. *)
Fixpoint getSubstitution (matched before after repl : string) : string :=
  match repl with
  | EmptyString => EmptyString
  | String c tail =>
      if Ascii.eqb c "$" then
        match tail with
        | EmptyString => String c EmptyString
        | String d rest =>
            if Ascii.eqb d "$" then String "$" (getSubstitution matched before after rest)
            else if Ascii.eqb d "&" then matched ++ getSubstitution matched before after rest
            else if Ascii.eqb d "`" then before ++ getSubstitution matched before after rest
            else if Ascii.eqb d "'" then after ++ getSubstitution matched before after rest
            else String c (getSubstitution matched before after tail)
        end
      else String c (getSubstitution matched before after tail)
  end.

(** [s.replace(p, repl)] with a string pattern: the first occurrence only. *)
Definition replace (s p repl : string) : string :=
  match indexOf s p with
  | None => s
  | Some i =>
      let before := take i s in
      let after := drop (i + String.length p) s in
      before ++ getSubstitution p before after repl ++ after
  end.

(** The result of ECMAScript's ToIntegerOrInfinity. *)
Inductive Index : Type :=
  | Finite (z : Z)
  | PlusInfinity
  | MinusInfinity.

(** The position an argument of [slice] stands for in a list of [len]
    elements: negative indices count from the end. *)
Definition relative (i : Index) (len : nat) : nat :=
  match i with
  | MinusInfinity => 0
  | PlusInfinity => len
  | Finite z =>
      if (z <? 0)%Z then Z.to_nat (Z.max (Z.of_nat len + z) 0)
      else Nat.min (Z.to_nat z) len
  end.

(** [l.slice(start, stop)] *)
Definition slice {A : Type} (l : list A) (start stop : Index) : list A :=
  let k := relative start (List.length l) in
  let final := relative stop (List.length l) in
  List.firstn (final - k) (List.skipn k l).

(** [s.padStart(n)] *)
Definition padStart (s : string) (n : nat) : string :=
  string_of_list_ascii (List.repeat " "%char (n - String.length s)) ++ s.

End Js.

(** ** Values *)

(** A value that came out of [JSON.parse].  Numbers are the integers, in
    the range where JavaScript is exact and prints every digit (up to
    2^53 in size): sums are taken in [Z], so that what is said of a sum
    holds as long as it stays in that range, and fractions are not
    modelled.  The fields of an object are its own properties, in the
    order in which [Object.keys] lists them. *)
Inductive json : Type :=
  | JNull
  | JBool (b : bool)
  | JNum (n : Z)
  | JStr (s : string)
  | JArr (items : list json)
  | JObj (fields : list (string * json)).

(** The outcome of code that may throw; [msg] is [err.message]. *)
Inductive result (A : Type) : Type :=
  | Ok (a : A)
  | Throw (msg : string).
Arguments Ok {A} a.
Arguments Throw {A} msg.

(** [obj[k]] in an object literal given as its list of entries *)
Fixpoint assoc {A : Type} (k : string) (l : list (string * A)) : option A :=
  match l with
  | [] => None
  | (k', v) :: rest => if String.eqb k k' then Some v else assoc k rest
  end.

(** [v.k] for a value that is neither [null] nor [undefined]: only objects
    carry the properties the tools read. *)
Definition prop (v : json) (k : string) : option json :=
  match v with
  | JObj fields => assoc k fields
  | _ => None
  end.

(** JavaScript truthiness; [None] is [undefined]. *)
Definition truthy (v : option json) : bool :=
  match v with
  | None | Some JNull => false
  | Some (JBool b) => b
  | Some (JNum n) => negb (Z.eqb n 0)
  | Some (JStr s) => negb (String.eqb s "")
  | Some (JArr _) | Some (JObj _) => true
  end.

(** [l.map(f)] for an [f] that may throw: the first throw ends it. *)
Definition map_result {A B : Type} (f : A -> result B) : list A -> result (list B) :=
  fix go (l : list A) : result (list B) :=
    match l with
    | [] => Ok []
    | x :: rest =>
        match f x with
        | Throw e => Throw e
        | Ok y => match go rest with
                  | Throw e => Throw e
                  | Ok ys => Ok (y :: ys)
                  end
        end
    end.

(** The object has an own property [k]. *)
Definition has_own (k : string) (fields : list (string * json)) : bool :=
  existsb (fun kv => String.eqb (fst kv) k) fields.

(** [String(v)], and the conversion to a primitive that [+] and [slice]
    apply to their operands.  An array is joined with commas, [null]
    counting as the empty string.  An object without an own [toString] is
    [[object Object]]; with one, which coming from JSON is no function,
    the conversion finds no method that gives a primitive and throws a
    [TypeError]. *)
Fixpoint ToString (v : json) : result string :=
  match v with
  | JNull => Ok "null"
  | JBool true => Ok "true"
  | JBool false => Ok "false"
  | JNum n => Ok (Js.string_of_Z n)
  | JStr s => Ok s
  | JArr items =>
      match map_result (fun x => match x with JNull => Ok "" | _ => ToString x end) items with
      | Throw e => Throw e
      | Ok texts => Ok (Js.join texts ",")
      end
  | JObj fields =>
      if has_own "toString" fields then Throw "Cannot convert object to primitive value"
      else Ok "[object Object]"
  end.

Definition ToString_opt (v : option json) : result string :=
  match v with
  | None => Ok "undefined"
  | Some x => ToString x
  end.

(** [v || d] *)
Definition or_default (v : option json) (d : json) : json :=
  match v with
  | Some x => if truthy v then x else d
  | None => d
  end.

(** The number a value is in an addition, if it is not joined as text:
    arrays, objects and strings make [+] a concatenation. *)
Definition as_number (v : json) : option Z :=
  match v with
  | JNum n => Some n
  | JBool true => Some 1%Z
  | JBool false | JNull => Some 0%Z
  | JStr _ | JArr _ | JObj _ => None
  end.

(** [a + b]: the sum of two numbers, exact in the range of [json]; a
    concatenation as soon as one operand is text, an array or an object. *)
Definition js_add (a b : json) : result json :=
  match as_number a, as_number b with
  | Some x, Some y => Ok (JNum (x + y))
  | _, _ =>
      match ToString a with
      | Throw e => Throw e
      | Ok s => match ToString b with
                | Throw e => Throw e
                | Ok t => Ok (JStr (s ++ t))
                end
      end
  end.

(** [Object.values(v)] for a value that is neither [null] nor
    [undefined]: the values of an object, the elements of an array, the
    characters of a string, and nothing for a number or a boolean. *)
Definition Object_values (v : json) : list json :=
  match v with
  | JObj fields => List.map snd fields
  | JArr items => items
  | JStr s => List.map JStr (Js.chars s)
  | JNull | JBool _ | JNum _ => []
  end.

(** [s || d] on optional strings *)
Definition str_or (s : option string) (d : string) : string :=
  match s with
  | Some x => if String.eqb x "" then d else x
  | None => d
  end.

(** ** The platform *)

Definition ToolArgs : Type := json.

Definition ToolFunction (W : Type) : Type := ToolArgs -> W -> result string * W.

(** What a call of [globSync] evaluates to.  Line 6 of the source is
    [import { glob as globSync } from 'glob']: the name is bound to the
    asynchronous [glob] of the package, which hands back a promise (an
    unfinished [Glob] object in the early versions of the package), never
    the array of paths.  Nobody awaits it: the program does not see what
    it settles to, and the model takes it that it is not rejected. *)
Inductive Promise : Type := unawaited.

(** What a child process did until the promise of [runBash] was resolved:
    the chunks of output in the order they arrived, and the message of the
    [error] event if that, and not [close], came first. *)
Record ExecRun : Type := {
  exec_chunks : list string;
  exec_error : option string
}.

(** Everything the program reaches through Node and its libraries.  [World]
    is the state outside the process (files, child processes).
    - [StringToIndex s] is the integer [slice] takes the string [s] for;
    - [RegExp_new p] is the [test] of the pattern compiled from [p], or the
      [SyntaxError] of the constructor;
    - [globSync] is the call of the glob package, which starts the search
      and returns its promise;
    - [path_join], [globSync] and [child_process_exec] throw on arguments
      of the wrong type. *)
Class Platform : Type := {
  World : Type;
  JSON_stringify : json -> string;
  JSON_parse : string -> result json;
  String_trim : string -> string;
  StringToIndex : string -> Js.Index;
  RegExp_new : option json -> result (string -> bool);
  path_join : list (option json) -> result string;
  fs_readFileSync : option json -> World -> result string;
  fs_writeFileSync : option json -> option json -> World -> result unit * World;
  globSync : string -> bool -> World -> result Promise;
  child_process_exec : option json -> World -> result ExecRun * World
}.

(** ** Tools *)

Section Tools.
Context {P : Platform}.

(** ToIntegerOrInfinity of a value *)
Definition to_index (v : json) : result Js.Index :=
  match as_number v with
  | Some n => Ok (Js.Finite n)
  | None => match ToString v with
            | Throw e => Throw e
            | Ok s => Ok (StringToIndex s)
            end
  end.

(** [`${String(offset + idx + 1).padStart(4)}| ${line}`] *)
Definition numbered_line (offset : json) (il : nat * string) : result string :=
  match js_add offset (JNum (Z.of_nat (fst il))) with
  | Throw e => Throw e
  | Ok upto =>
      match js_add upto (JNum 1) with
      | Throw e => Throw e
      | Ok number =>
          match ToString number with
          | Throw e => Throw e
          | Ok label => Ok (Js.padStart label 4 ++ "| " ++ snd il)%string
          end
      end
  end.

Definition readFile : ToolFunction World := fun args w =>
  let filePath := prop args "path" in
  match fs_readFileSync filePath w with
  | Throw e => (Throw e, w)
  | Ok text =>
      let lines := Js.split text (String "010" EmptyString) in
      let offset := or_default (prop args "offset") (JNum 0) in
      let limit := or_default (prop args "limit") (JNum (Z.of_nat (List.length lines))) in
      match js_add offset limit with
      | Throw e => (Throw e, w)
      | Ok stop =>
          match to_index offset with
          | Throw e => (Throw e, w)
          | Ok first =>
              match to_index stop with
              | Throw e => (Throw e, w)
              | Ok last =>
                  let selected := Js.slice lines first last in
                  match map_result (numbered_line offset)
                          (List.combine (List.seq 0 (List.length selected)) selected) with
                  | Throw e => (Throw e, w)
                  | Ok out => (Ok (Js.join out (String "010" EmptyString)), w)
                  end
              end
          end
      end
  end.

Definition writeFile : ToolFunction World := fun args w =>
  match fs_writeFileSync (prop args "path") (prop args "content") w with
  | (Ok _, w') => (Ok "ok", w')
  | (Throw e, w') => (Throw e, w')
  end.

Definition editFile : ToolFunction World := fun args w =>
  let filePath := prop args "path" in
  match fs_readFileSync filePath w with
  | Throw e => (Throw e, w)
  | Ok text =>
      let old := prop args "old" in
      let newStr := prop args "new" in
      match ToString_opt old with
      | Throw e => (Throw e, w)
      | Ok searched =>
          if negb (Js.includes text searched) then
            (Ok "error: old_string not found", w)
          else
            match old with
            | Some (JStr old) =>
                let count := Js.match_count text old in
                if negb (truthy (prop args "all")) && (1 <? count)%nat then
                  (Ok ("error: old_string appears " ++ Js.string_of_nat count
                       ++ " times, must be unique (use all=true)")%string, w)
                else
                  let replacement :=
                    if truthy (prop args "all")
                    then match (match newStr with
                                | None => Ok ","
                                | Some v => ToString v
                                end) with
                         | Throw e => Throw e
                         | Ok separator => Ok (Js.join (Js.split text old) separator)
                         end
                    else match ToString_opt newStr with
                         | Throw e => Throw e
                         | Ok replaceValue => Ok (Js.replace text old replaceValue)
                         end in
                  match replacement with
                  | Throw e => (Throw e, w)
                  | Ok replacement =>
                      match fs_writeFileSync filePath (Some (JStr replacement)) w with
                      | (Ok _, w') => (Ok "ok", w')
                      | (Throw e, w') => (Throw e, w')
                      end
                  end
            | Some JNull => (Throw "Cannot read properties of null (reading 'replace')", w)
            | Some _ => (Throw "old.replace is not a function", w)
            | None => (Throw "Cannot read properties of undefined (reading 'replace')", w)
            end
      end
  end.

(** [globFiles] gets as far as [files.sort]: [files] is the promise, which
    has no [sort], and the call throws.  The comparator and the joining of
    the sorted paths (lines 112 to 124) are never reached. *)
Definition globFiles : ToolFunction World := fun args w =>
  let basePath := or_default (prop args "path") (JStr ".") in
  match path_join [Some basePath; prop args "pat"] with
  | Throw e => (Throw e, w)
  | Ok joined =>
      let pattern := Js.replace joined "//" "/" in
      match globSync pattern false w with
      | Throw e => (Throw e, w)
      | Ok files => (Throw "files.sort is not a function", w)
      end
  end.

(** [grepFiles] gets as far as [for (const filepath of files)]: the
    promise is not iterable, and the statement throws.  The body of the
    loop and the joining of the hits (lines 134 to 148) are never
    reached. *)
Definition grepFiles : ToolFunction World := fun args w =>
  match RegExp_new (prop args "pat") with
  | Throw e => (Throw e, w)
  | Ok pattern =>
      let basePath := or_default (prop args "path") (JStr ".") in
      match path_join [Some basePath; Some (JStr "**/*")] with
      | Throw e => (Throw e, w)
      | Ok joined =>
          match globSync joined true w with
          | Throw e => (Throw e, w)
          | Ok files => (Throw "files is not iterable", w)
          end
      end
  end.

(** The [data] handlers of [runBash]: every non-empty line of a chunk is
    added to the output, with a line end.  (They also echo the line on the
    console, which is not recorded.) *)
Definition collect (output chunk : string) : string :=
  List.fold_left
    (fun out line => if String.eqb line "" then out else (out ++ line ++ String "010" EmptyString)%string)
    (Js.split chunk (String "010" EmptyString))
    output.

Definition runBash : ToolFunction World := fun args w =>
  match child_process_exec (prop args "cmd") w with
  | (Throw e, w') => (Throw e, w')
  | (Ok run, w') =>
      match exec_error run with
      | Some msg => (Ok ("error: " ++ msg)%string, w')
      | None =>
          let output := List.fold_left collect (exec_chunks run) EmptyString in
          (Ok (if String.eqb (String_trim output) "" then "(empty)" else String_trim output), w')
      end
  end.

Record ToolDefinition : Type := {
  description : string;
  params : list (string * string);
  fn : ToolFunction World
}.

Definition TOOLS : list (string * ToolDefinition) :=
  [ ("read",
     {| description := "Read file with line numbers (file path, not directory)";
        params := [("path", "string"); ("offset", "number?"); ("limit", "number?")];
        fn := readFile |});
    ("write",
     {| description := "Write content to file";
        params := [("path", "string"); ("content", "string")];
        fn := writeFile |});
    ("edit",
     {| description := "Replace old with new in file (old must be unique unless all=true)";
        params := [("path", "string"); ("old", "string"); ("new", "string"); ("all", "boolean?")];
        fn := editFile |});
    ("glob",
     {| description := "Find files by pattern, sorted by mtime";
        params := [("pat", "string"); ("path", "string?")];
        fn := globFiles |});
    ("grep",
     {| description := "Search files for regex pattern";
        params := [("pat", "string"); ("path", "string?")];
        fn := grepFiles |});
    ("bash",
     {| description := "Run shell command";
        params := [("cmd", "string")];
        fn := runBash |}) ].

(** The property names every object inherits from [Object.prototype]:
    [TOOLS[name]] is defined for them, but has no [fn]. *)
Definition inherited_names : list string :=
  [ "constructor"; "__proto__"; "hasOwnProperty"; "isPrototypeOf";
    "propertyIsEnumerable"; "toLocaleString"; "toString"; "valueOf";
    "__defineGetter__"; "__defineSetter__"; "__lookupGetter__"; "__lookupSetter__" ].

(** [TOOLS[name].fn(args)]: for a name that is no key of the registry the
    call itself throws a [TypeError]. *)
Definition call_tool (name : string) (args : ToolArgs) (w : World) : result string * World :=
  match assoc name TOOLS with
  | Some def => fn def args w
  | None =>
      if existsb (String.eqb name) inherited_names
      then (Throw "TOOLS[name].fn is not a function", w)
      else (Throw "Cannot read properties of undefined (reading 'fn')", w)
  end.

Definition runTool (name : string) (args : ToolArgs) (w : World) : string * World :=
  match call_tool name args w with
  | (Ok s, w') => (s, w')
  | (Throw msg, w') => (("error: " ++ msg)%string, w')
  end.

(** *** Schemas *)

Record InputSchema : Type := {
  schema_type : string;
  properties : list (string * string);   (* name, and the [type] of its schema *)
  required : list string
}.

Record ToolSchema : Type := {
  schema_name : string;
  schema_description : string;
  input_schema : InputSchema
}.

(** The inner loop of [makeSchema] over [Object.entries(def.params)]. *)
Fixpoint schema_params (ps : list (string * string))
    (props : list (string * string)) (req : list string)
    : list (string * string) * list string :=
  match ps with
  | [] => (props, req)
  | (paramName, paramType) :: rest =>
      let isOptional := Js.endsWith paramType "?" in
      let baseType := Js.replace paramType "?" "" in
      let props' :=
        props ++ [(paramName, if String.eqb baseType "number" then "integer" else baseType)] in
      let req' := if negb isOptional then req ++ [paramName] else req in
      schema_params rest props' req'
  end.

Definition tool_schema (entry : string * ToolDefinition) : ToolSchema :=
  let '(name, def) := entry in
  let '(props, req) := schema_params (params def) [] [] in
  {| schema_name := name;
     schema_description := description def;
     input_schema := {| schema_type := "object"; properties := props; required := req |} |}.

Definition makeSchema : list ToolSchema := List.map tool_schema TOOLS.

End Tools.

(** ** Messages *)

Inductive Role : Type := user | assistant | system.

(** [interface ContentBlock], with the two fields of the tool results that
    [main] builds.  Every field but [type] may be absent. *)
Record ContentBlock : Type := {
  b_type : string;
  b_text : option string;
  b_id : option string;
  b_name : option string;
  b_input : option json;
  b_tool_use_id : option string;
  b_content : option string
}.

(** [{ type: 'text', text }] *)
Definition text_block (text : string) : ContentBlock :=
  {| b_type := "text"; b_text := Some text; b_id := None; b_name := None;
     b_input := None; b_tool_use_id := None; b_content := None |}.

(** [{ type: 'tool_use', id, name, input }] *)
Definition tool_use_block (id name : option string) (input : option json) : ContentBlock :=
  {| b_type := "tool_use"; b_text := None; b_id := id; b_name := name;
     b_input := input; b_tool_use_id := None; b_content := None |}.

(** [{ type: 'tool_result', tool_use_id, content }] *)
Definition tool_result_block (tool_use_id : option string) (content : string) : ContentBlock :=
  {| b_type := "tool_result"; b_text := None; b_id := None; b_name := None;
     b_input := None; b_tool_use_id := tool_use_id; b_content := Some content |}.

Definition is_text (b : ContentBlock) : bool := String.eqb (b_type b) "text".
Definition is_tool_use (b : ContentBlock) : bool := String.eqb (b_type b) "tool_use".

(** [content: any]: a string or an array of blocks. *)
Inductive Content : Type :=
  | Text (s : string)
  | Blocks (bs : list ContentBlock).

Record Message : Type := {
  role : Role;
  content : Content
}.

(** The block as the JSON object it is; absent fields are left out. *)
Definition field {A : Type} (k : string) (f : A -> json) (v : option A) : list (string * json) :=
  match v with
  | Some x => [(k, f x)]
  | None => []
  end.

Definition json_of_block (b : ContentBlock) : json :=
  JObj ([("type", JStr (b_type b))]
        ++ field "text" JStr (b_text b)
        ++ field "id" JStr (b_id b)
        ++ field "name" JStr (b_name b)
        ++ field "input" (fun v => v) (b_input b)
        ++ field "tool_use_id" JStr (b_tool_use_id b)
        ++ field "content" JStr (b_content b)).

(** ** Configuration *)

Inductive Provider : Type := openrouter | groq | anthropic.

Record ApiConfig : Type := {
  url : string;
  key : string;
  model : string;
  provider : Provider
}.

(** [getApiConfig], reading [process.env] through [env]. *)
Definition getApiConfig (env : string -> option string) : ApiConfig :=
  let openrouterKey := env "OPENROUTER_API_KEY" in
  let groqKey := env "GROQ_API_KEY" in
  let anthropicKey := env "ANTHROPIC_API_KEY" in
  if negb (String.eqb (str_or openrouterKey "") "") then
    {| url := "https://openrouter.ai/api/v1/messages";
       key := str_or openrouterKey "";
       model := str_or (env "MODEL") "anthropic/claude-opus-4.5";
       provider := openrouter |}
  else if negb (String.eqb (str_or groqKey "") "") then
    {| url := "https://api.groq.com/openai/v1/chat/completions";
       key := str_or groqKey "";
       model := str_or (env "MODEL") "llama-3.3-70b-versatile";
       provider := groq |}
  else
    {| url := "https://api.anthropic.com/v1/messages";
       key := str_or anthropicKey "";
       model := str_or (env "MODEL") "claude-opus-4-5";
       provider := anthropic |}.

(** ** The wire shapes *)

(** [{ name, arguments }] *)
Record FunctionCall : Type := {
  fc_name : option string;
  fc_arguments : option string
}.

(** [{ id, type: 'function', function }] *)
Record ToolCall : Type := {
  tc_id : option string;
  tc_type : string;
  tc_function : FunctionCall
}.

(** A message of the chat-with-tool-calls family; [None] in [chat_content]
    is [null]. *)
Record ChatMessage : Type := {
  chat_role : string;
  chat_content : option string;
  tool_call_id : option string;
  tool_calls : option (list ToolCall)
}.

Record Choice : Type := {
  message : option ChatMessage
}.

(** The parsed body of a successful reply: [choices] is read for the
    chat-with-tool-calls family, [content] for the content-block family. *)
Record Response : Type := {
  resp_choices : option (list Choice);
  resp_content : option (list ContentBlock)
}.

Record FunctionSchema : Type := {
  fs_name : string;
  fs_description : string;
  fs_parameters : InputSchema
}.

Record OpenAiTool : Type := {
  ot_type : string;
  ot_function : FunctionSchema
}.

Inductive Body : Type :=
  | AnthropicBody (model : string) (max_tokens : Z) (system_prompt : string)
                  (msgs : list Message) (tools : list ToolSchema)
  | OpenAiBody (model : string) (msgs : list ChatMessage) (tools : list OpenAiTool)
               (tool_choice : string) (max_tokens : Z).

Record Request : Type := {
  req_url : string;
  req_headers : list (string * string);
  req_body : Body
}.

(** What the transport answers to one request. *)
Inductive Reply : Type :=
  | HttpOk (body : Response)                     (* [response.ok], body parsed *)
  | HttpError (status : Z) (body : string)       (* [!response.ok] *)
  | Rejected (msg : string).                     (* [fetch] or [response.json()] rejected *)

(** ** The protocol adapter: [callApi] and the decoding in [main] *)

Section Adapter.
Context {P : Platform}.

(** [msg.content[0]?.tool_use_id || 'unknown'] *)
Definition first_tool_use_id (bs : list ContentBlock) : string :=
  match bs with
  | [] => "unknown"
  | b :: _ => str_or (b_tool_use_id b) "unknown"
  end.

(** [{ id, type: 'function', function: { name, arguments } }];
    [JSON.stringify(undefined)] is [undefined]. *)
Definition tool_call_of (tool : ContentBlock) : ToolCall :=
  {| tc_id := b_id tool;
     tc_type := "function";
     tc_function := {| fc_name := b_name tool;
                       fc_arguments := option_map JSON_stringify (b_input tool) |} |}.

(** The chat message of an assistant message whose content is an array. *)
Definition encode_assistant (bs : list ContentBlock) : ChatMessage :=
  let textContent := List.find is_text bs in
  let toolUses := List.filter is_tool_use bs in
  {| chat_role := "assistant";
     chat_content :=
       match textContent with
       | Some b =>
           match b_text b with
           | Some t => if String.eqb t "" then None else Some t
           | None => None
           end
       | None => None
       end;
     tool_call_id := None;
     tool_calls :=
       match toolUses with
       | [] => None
       | _ => Some (List.map tool_call_of toolUses)
       end |}.

(** One pass of the loop [for (const msg of messages)]: what it pushes. *)
Definition encode_message (msg : Message) : list ChatMessage :=
  match role msg, content msg with
  | user, Blocks bs =>
      [ {| chat_role := "tool";
           chat_content := Some (JSON_stringify (JArr (List.map json_of_block bs)));
           tool_call_id := Some (first_tool_use_id bs);
           tool_calls := None |} ]
  | user, Text s =>
      [ {| chat_role := "user"; chat_content := Some s;
           tool_call_id := None; tool_calls := None |} ]
  | assistant, Blocks bs => [ encode_assistant bs ]
  | assistant, Text s =>
      [ {| chat_role := "assistant"; chat_content := Some s;
           tool_call_id := None; tool_calls := None |} ]
  | system, _ => []
  end.

Definition openAiMessages (messages : list Message) (systemPrompt : string) : list ChatMessage :=
  {| chat_role := "system"; chat_content := Some systemPrompt;
     tool_call_id := None; tool_calls := None |}
  :: List.flat_map encode_message messages.

Definition openAiTools : list OpenAiTool :=
  List.map (fun tool =>
              {| ot_type := "function";
                 ot_function := {| fs_name := schema_name tool;
                                   fs_description := schema_description tool;
                                   fs_parameters := input_schema tool |} |})
           makeSchema.

(** The request [callApi] sends. *)
Definition request_of (messages : list Message) (systemPrompt : string)
    (config : ApiConfig) : Request :=
  match provider config with
  | groq =>
      {| req_url := url config;
         req_headers := [ ("Content-Type", "application/json");
                          ("Authorization", ("Bearer " ++ key config)%string) ];
         req_body := OpenAiBody (model config) (openAiMessages messages systemPrompt)
                                openAiTools "auto" 1600 |}
  | openrouter =>
      {| req_url := url config;
         req_headers := [ ("Content-Type", "application/json");
                          ("anthropic-version", "2023-06-01");
                          ("Authorization", ("Bearer " ++ key config)%string) ];
         req_body := AnthropicBody (model config) 1600 systemPrompt messages makeSchema |}
  | anthropic =>
      {| req_url := url config;
         req_headers := [ ("Content-Type", "application/json");
                          ("anthropic-version", "2023-06-01");
                          ("x-api-key", key config) ];
         req_body := AnthropicBody (model config) 1600 systemPrompt messages makeSchema |}
  end.

(** What [callApi] returns or throws once the transport has answered. *)
Definition callApi (reply : Reply) : result Response :=
  match reply with
  | HttpOk body => Ok body
  | HttpError status body =>
      Throw ("API error: " ++ Js.string_of_Z status ++ " - " ++ body)%string
  | Rejected msg => Throw msg
  end.

(** The loop [for (const toolCall of message.tool_calls)]: the first
    argument payload that does not parse throws.  [JSON.parse(undefined)]
    parses the text [undefined]. *)
Fixpoint decode_tool_calls (calls : list ToolCall) (contentBlocks : list ContentBlock)
    : result (list ContentBlock) :=
  match calls with
  | [] => Ok contentBlocks
  | toolCall :: rest =>
      match JSON_parse (match fc_arguments (tc_function toolCall) with
                        | Some s => s
                        | None => "undefined"
                        end) with
      | Throw msg => Throw msg
      | Ok input =>
          decode_tool_calls rest
            (contentBlocks ++ [tool_use_block (tc_id toolCall)
                                              (fc_name (tc_function toolCall))
                                              (Some input)])
      end
  end.

(** The content blocks of a response (lines 434 to 456 of [main]). *)
Definition decode (config : ApiConfig) (response : Response) : result (list ContentBlock) :=
  match provider config with
  | groq =>
      let choice := match resp_choices response with
                    | Some (c :: _) => Some c
                    | _ => None
                    end in
      let message := match choice with
                     | Some c => message c
                     | None => None
                     end in
      let contentBlocks :=
        match message with
        | Some m =>
            match chat_content m with
            | Some t => if String.eqb t "" then [] else [text_block t]
            | None => []
            end
        | None => []
        end in
      match message with
      | Some m =>
          match tool_calls m with
          | Some calls => decode_tool_calls calls contentBlocks
          | None => Ok contentBlocks
          end
      | None => Ok contentBlocks
      end
  | _ =>
      Ok (match resp_content response with
          | Some blocks => blocks
          | None => []
          end)
  end.

(** A provider response that carries the chat message [m] as its first
    choice. *)
Definition response_of_chat (m : ChatMessage) : Response :=
  {| resp_choices := Some [ {| message := Some m |} ]; resp_content := None |}.

End Adapter.

(** ** The agent loop: [main] *)

(** The lines [main] prints, by what they show; colours, the width of the
    separator and the shortening of previews are left to the terminal. *)
Inductive Console : Type :=
  | Banner
  | Separator
  | Cleared
  | AssistantText (text : string)
  | ToolHeader (toolName : string) (toolArgs : json)
  | ToolPreview (result : string)
  | BlankLine
  | ErrorLine (msg : string).

(** What [main] does to the outside and to its history, in program order. *)
Inductive Event : Type :=
  | EvLog (line : Console)
  | EvFetch (request : Request)
  | EvTool (toolName : string) (toolArgs : json) (result : string)
  | EvPush (msg : Message)
  | EvClear.

Section Loop.
Context {P : Platform}.

Record State : Type := {
  messages : list Message;
  world : World;
  trace : list Event
}.

Definition emit (e : Event) (st : State) : State :=
  {| messages := messages st; world := world st; trace := trace st ++ [e] |}.

(** [messages.push(msg)] *)
Definition push (msg : Message) (st : State) : State :=
  {| messages := messages st ++ [msg]; world := world st;
     trace := trace st ++ [EvPush msg] |}.

(** [messages.length = 0] *)
Definition clear (st : State) : State :=
  {| messages := []; world := world st; trace := trace st ++ [EvClear] |}.

Definition set_world (w : World) (st : State) : State :=
  {| messages := messages st; world := w; trace := trace st |}.

(** [block.input || {}] *)
Definition input_or_empty (input : option json) : json := or_default input (JObj []).

(** [String(Object.values(toolArgs)[0] || '').slice(0, 50)], line 468: the
    start of the first argument, for the header line of a tool call.  It
    is computed outside [runTool], so that a first argument that cannot be
    converted to a string throws into the [catch] of [main]. *)
Definition argPreview (toolArgs : json) : result string :=
  match ToString (or_default (List.hd_error (Object_values toolArgs)) (JStr "")) with
  | Throw e => Throw e
  | Ok shown => Ok (Js.take 50 shown)
  end.

(** The loop [for (const block of contentBlocks)], lines 460 to 487.  It
    is left by the throw of line 468, with the tools of the earlier blocks
    run and the later blocks untouched. *)
Fixpoint dispatch (contentBlocks : list ContentBlock) (toolResults : list ContentBlock)
    (st : State) : result (list ContentBlock) * State :=
  match contentBlocks with
  | [] => (Ok toolResults, st)
  | block :: rest =>
      let st1 :=
        if String.eqb (b_type block) "text"
        then emit (EvLog (AssistantText (str_or (b_text block) ""))) st
        else st in
      if String.eqb (b_type block) "tool_use" then
        let toolName := str_or (b_name block) "" in
        let toolArgs := input_or_empty (b_input block) in
        match argPreview toolArgs with
        | Throw msg => (Throw msg, st1)
        | Ok _ =>
            let st2 := emit (EvLog (ToolHeader toolName toolArgs)) st1 in
            let '(result, w) := runTool toolName toolArgs (world st2) in
            let st3 := emit (EvTool toolName toolArgs result) (set_world w st2) in
            let st4 := emit (EvLog (ToolPreview result)) st3 in
            dispatch rest (toolResults ++ [tool_result_block (b_id block) result]) st4
        end
      else dispatch rest toolResults st1
  end.

(** Lines 458 to 492: the tools of one response are run, then the history
    grows.  The boolean tells whether the agentic loop goes on; when the
    loop over the blocks throws, nothing is pushed. *)
Definition process_response (contentBlocks : list ContentBlock) (st : State)
    : result bool * State :=
  match dispatch contentBlocks [] st with
  | (Throw msg, st1) => (Throw msg, st1)
  | (Ok toolResults, st1) =>
      let st2 := push {| role := assistant; content := Blocks contentBlocks |} st1 in
      match toolResults with
      | [] => (Ok false, st2)
      | _ => (Ok true, push {| role := user; content := Blocks toolResults |} st2)
      end
  end.

(** How the agentic loop stops. *)
Inductive Completion : Type :=
  | LoopBreak                 (* [break]: no tool was asked for *)
  | Thrown (msg : string)     (* [callApi], the decoding or line 468 threw *)
  | AwaitingReply.            (* the transport has not answered *)

(** The agentic loop, [while (true)] at line 431.  It stops for lack of an
    answer when the script of replies is used up. *)
Fixpoint agentic (config : ApiConfig) (systemPrompt : string) (replies : list Reply)
    (st : State) : Completion * list Reply * State :=
  let st1 := emit (EvFetch (request_of (messages st) systemPrompt config)) st in
  match replies with
  | [] => (AwaitingReply, [], st1)
  | reply :: rest =>
      match callApi reply with
      | Throw msg => (Thrown msg, rest, st1)
      | Ok response =>
          match decode config response with
          | Throw msg => (Thrown msg, rest, st1)
          | Ok contentBlocks =>
              match process_response contentBlocks st1 with
              | (Ok false, st2) => (LoopBreak, rest, st2)
              | (Ok true, st2) => agentic config systemPrompt rest st2
              | (Throw msg, st2) => (Thrown msg, rest, st2)
              end
          end
      end
  end.

(** How one pass of the outer loop ends. *)
Inductive Control : Type :=
  | Continue                  (* back to the prompt *)
  | Break                     (* the outer loop is left: [main] returns *)
  | Blocked.                  (* the transport has not answered *)

(** One pass of the outer [while (true)], lines 415 to 500, on the line
    [getUserInput] returned. *)
Definition iteration (config : ApiConfig) (systemPrompt : string) (userInput : string)
    (replies : list Reply) (st : State) : Control * list Reply * State :=
  let st := emit (EvLog Separator) (emit (EvLog Separator) st) in
  if String.eqb userInput "" then (Continue, replies, st)
  else if String.eqb userInput "/q" || String.eqb userInput "exit" then (Break, replies, st)
  else if String.eqb userInput "/c" then
    (Continue, replies, emit (EvLog Cleared) (clear st))
  else
    let st := push {| role := user; content := Text userInput |} st in
    match agentic config systemPrompt replies st with
    | (LoopBreak, rest, st') => (Continue, rest, emit (EvLog BlankLine) st')
    | (Thrown msg, rest, st') =>
        if Js.includes msg "SIGINT" then (Break, rest, st')
        else (Continue, rest, emit (EvLog (ErrorLine msg)) st')
    | (AwaitingReply, rest, st') => (Blocked, rest, st')
    end.

(** Where [main] stands when both scripts have been played. *)
Inductive Status : Type :=
  | Exited
  | AwaitingUserInput
  | AwaitingTransport.

Fixpoint main_loop (config : ApiConfig) (systemPrompt : string) (inputs : list string)
    (replies : list Reply) (st : State) : Status * State :=
  match inputs with
  | [] => (AwaitingUserInput, emit (EvLog Separator) st)
  | userInput :: more =>
      match iteration config systemPrompt userInput replies st with
      | (Continue, rest, st') => main_loop config systemPrompt more rest st'
      | (Break, _, st') => (Exited, st')
      | (Blocked, _, st') => (AwaitingTransport, st')
      end
  end.

Definition initial (w : World) : State :=
  {| messages := []; world := w; trace := [EvLog Banner] |}.

Definition main (config : ApiConfig) (cwd : string) (inputs : list string)
    (replies : list Reply) (w : World) : Status * State :=
  main_loop config ("Concise coding assistant. cwd: " ++ cwd)%string inputs replies (initial w).

End Loop.

(** * The vocabulary of the properties *)

(** ** Schemas *)

(** The declared type without its trailing optionality marker. *)
Definition without_marker (paramType : string) : string :=
  if Js.endsWith paramType "?"
  then Js.take (String.length paramType - 1) paramType
  else paramType.

(** The [type] the schema gives to a declared type. *)
Definition emitted_type (paramType : string) : string :=
  if String.eqb (Js.replace paramType "?" "") "number" then "integer"
  else Js.replace paramType "?" "".

(** ** The protocol adapter *)

(** What is left of the text of an assistant message after the round trip
    through the chat-with-tool-calls shape: its first text block, unless
    that text is empty. *)
Definition surviving_text (bs : list ContentBlock) : list ContentBlock :=
  match List.find is_text bs with
  | Some b =>
      match b_text b with
      | Some t => if String.eqb t "" then [] else [text_block t]
      | None => []
      end
  | None => []
  end.

Section AdapterVocabulary.
Context {P : Platform}.

(** A [tool_use] block as the decoder builds it, with an input that
    [JSON.parse] gives back from its [JSON.stringify]. *)
Definition portable_tool_use (b : ContentBlock) : Prop :=
  exists id name input,
    b = tool_use_block id name (Some input)
    /\ JSON_parse (JSON_stringify input) = Ok input.

(** The chat message of a user message that carries tool results. *)
Definition tool_message (bs : list ContentBlock) : ChatMessage :=
  {| chat_role := "tool";
     chat_content := Some (JSON_stringify (JArr (List.map json_of_block bs)));
     tool_call_id :=
       Some (match bs with
             | [] => "unknown"
             | b :: _ =>
                 match b_tool_use_id b with
                 | Some id => if String.eqb id "" then "unknown" else id
                 | None => "unknown"
                 end
             end);
     tool_calls := None |}.

End AdapterVocabulary.

(** ** The agent loop *)

(** The tool calls a trace records, in order. *)
Definition invocations (tr : list Event) : list (string * json * string) :=
  List.flat_map (fun e => match e with
                          | EvTool toolName toolArgs result => [(toolName, toolArgs, result)]
                          | _ => []
                          end) tr.

(** The requests a trace records, in order. *)
Definition fetches (tr : list Event) : list Request :=
  List.flat_map (fun e => match e with
                          | EvFetch request => [request]
                          | _ => []
                          end) tr.

(** An event that leaves history and transport alone. *)
Definition quiet (e : Event) : bool :=
  match e with
  | EvLog _ | EvTool _ _ _ => true
  | EvFetch _ | EvPush _ | EvClear => false
  end.

(** An event that leaves the history alone. *)
Definition keeps_history (e : Event) : bool :=
  match e with
  | EvLog _ | EvTool _ _ _ | EvFetch _ => true
  | EvPush _ | EvClear => false
  end.

(** The name and the arguments [main] calls [runTool] with for a block. *)
Definition invocation_of (block : ContentBlock) : string * json :=
  (str_or (b_name block) "", input_or_empty (b_input block)).

(** The header line of the tool call can be printed: the first argument
    of the block converts to a string. *)
Definition header_prints (block : ContentBlock) : bool :=
  match argPreview (input_or_empty (b_input block)) with
  | Ok _ => true
  | Throw _ => false
  end.

(** The result blocks that carry the id [id]. *)
Definition answers_to (id : option string) (results : list ContentBlock) : list ContentBlock :=
  List.filter (fun r => bool_decide (b_tool_use_id r = id)) results.

(** A line of user input that is sent to the model: not empty, not a
    command. *)
Definition is_prompt (userInput : string) : bool :=
  negb (String.eqb userInput "")
  && negb (String.eqb userInput "/q")
  && negb (String.eqb userInput "exit")
  && negb (String.eqb userInput "/c").

(** The claim of C4 about a trace: every assistant message is pushed
    before any tool is called. *)
Definition pushed_before_tools (tr : list Event) : Prop :=
  forall i j contentBlocks toolName toolArgs result,
    nth_error tr i = Some (EvPush {| role := assistant; content := Blocks contentBlocks |}) ->
    nth_error tr j = Some (EvTool toolName toolArgs result) ->
    i < j.

Section LoopVocabulary.
Context {P : Platform}.

(** The calls of a list of tool requests, one after the other, each in the
    world the one before it left. *)
Fixpoint run_tools (calls : list (string * json)) (w : World) : list string * World :=
  match calls with
  | [] => ([], w)
  | (toolName, toolArgs) :: rest =>
      let '(result, w1) := runTool toolName toolArgs w in
      let '(results, w2) := run_tools rest w1 in
      (result :: results, w2)
  end.

(** The result blocks for a list of [tool_use] blocks and the strings their
    calls returned. *)
Definition results_for (uses : list ContentBlock) (results : list string) : list ContentBlock :=
  List.map (fun br => tool_result_block (b_id (fst br)) (snd br)) (List.combine uses results).

(** The trace entries for these calls. *)
Definition calls_with (calls : list (string * json)) (results : list string)
    : list (string * json * string) :=
  List.combine calls results.

(** The messages [process_response] appends for these blocks and results. *)
Definition appended (contentBlocks results : list ContentBlock) : list Message :=
  {| role := assistant; content := Blocks contentBlocks |}
  :: match results with
     | [] => []
     | _ => [ {| role := user; content := Blocks results |} ]
     end.

(** The ways in which the program moves from one state to the next: it
    prints, sends a request or runs a tool, none of which touches the
    history; it pushes a user or an assistant message at the end of the
    history; it empties the history. *)
Inductive step : State -> State -> Prop :=
  | step_emit (e : Event) (st : State) :
      keeps_history e = true -> step st (emit e st)
  | step_world (w : World) (st : State) :
      step st (set_world w st)
  | step_push (msg : Message) (st : State) :
      role msg = user \/ role msg = assistant -> step st (push msg st)
  | step_clear (st : State) :
      step st (clear st).

End LoopVocabulary.

(** ** The tools *)

Section ToolVocabulary.
Context {P : Platform}.

(** What [editFile] and [writeFile] do once they write [content] to the
    path of their arguments. *)
Definition written (args : ToolArgs) (content : string) (w : World)
    : result string * World :=
  match fs_writeFileSync (prop args "path") (Some (JStr content)) w with
  | (Ok _, w') => (Ok "ok", w')
  | (Throw e, w') => (Throw e, w')
  end.

End ToolVocabulary.

(** The lines [lines] as [readFile] prints them when the first of them
    has the number [first]. *)
Definition numbered (first : Z) (lines : list string) : string :=
  Js.join
    (List.map (fun il => (Js.padStart (Js.string_of_Z (first + Z.of_nat (fst il))) 4
                          ++ "| " ++ snd il)%string)
              (List.combine (List.seq 0 (List.length lines)) lines))
    (String "010" EmptyString).

(** ** Requests *)

(** The tools a request body advertises: name, description and parameter
    schema of each, whatever the envelope. *)
Definition advertised (body : Body) : list (string * string * InputSchema) :=
  match body with
  | AnthropicBody _ _ _ _ tools =>
      List.map (fun t => (schema_name t, schema_description t, input_schema t)) tools
  | OpenAiBody _ _ tools _ _ =>
      List.map (fun t => (fs_name (ot_function t), fs_description (ot_function t),
                          fs_parameters (ot_function t))) tools
  end.

(** The environment variable is set to a non-empty value. *)
Definition is_set (env : string -> option string) (k : string) : bool :=
  negb (String.eqb (str_or (env k) "") "").

(** ** The adapter *)

(** The role a history message has on the chat-with-tool-calls wire. *)
Definition chat_role_of (msg : Message) : string :=
  match role msg, content msg with
  | user, Blocks _ => "tool"
  | user, Text _ => "user"
  | assistant, _ => "assistant"
  | system, _ => "system"
  end.

Definition is_system (msg : Message) : bool :=
  match role msg with
  | system => true
  | _ => false
  end.

Section DecodeVocabulary.
Context {P : Platform}.

(** The argument payload of the tool call parses. *)
Definition parses (call : ToolCall) : Prop :=
  exists input,
    JSON_parse (match fc_arguments (tc_function call) with
                | Some s => s
                | None => "undefined"
                end) = Ok input.

End DecodeVocabulary.

(** ** The loop *)

Section TraceVocabulary.
Context {P : Platform}.

(** The tool calls recorded in [evs], run one after the other from the
    world [w], return the recorded results and leave the world [w']. *)
Definition replays (w : World) (evs : list Event) (w' : World) : Prop :=
  run_tools (List.map fst (invocations evs)) w = (List.map snd (invocations evs), w').

End TraceVocabulary.

(** The history ends with a message of the user. *)
Definition ends_with_user (history : list Message) : Prop :=
  exists before last, history = before ++ [last] /\ role last = user.

(** Every message of tool results stands right after an assistant message
    and answers its [tool_use] blocks, id by id and in order. *)
Definition results_answer_requests (history : list Message) : Prop :=
  forall i results,
    nth_error history i = Some {| role := user; content := Blocks results |} ->
    results <> []
    /\ exists j contentBlocks,
         i = S j
         /\ nth_error history j = Some {| role := assistant; content := Blocks contentBlocks |}
         /\ List.map b_tool_use_id results
            = List.map b_id (List.filter is_tool_use contentBlocks).

(** Every assistant message stands right after a message of the user. *)
Definition assistant_follows_user (history : list Message) : Prop :=
  forall i msg,
    nth_error history i = Some msg -> role msg = assistant ->
    exists j before, i = S j /\ nth_error history j = Some before /\ role before = user.

Section RequestVocabulary.
Context {P : Platform}.

(** Every request of the trace was built from a history that ends with a
    message of the user. *)
Definition requests_end_with_user (config : ApiConfig) (systemPrompt : string)
    (tr : list Event) : Prop :=
  forall request,
    In request (fetches tr) ->
    exists history,
      request = request_of history systemPrompt config /\ ends_with_user history.

(** What holds of the history and of the requests in every state of
    [main]. *)
Definition sound (config : ApiConfig) (systemPrompt : string) (st : State) : Prop :=
  results_answer_requests (messages st)
  /\ assistant_follows_user (messages st)
  /\ requests_end_with_user config systemPrompt (trace st).

End RequestVocabulary.

(** ** The preview of a tool result

    Lines 472 to 478 of [main]: the first sixty characters of the first
    line of the result, followed by the number of further lines, or by an
    ellipsis when the only line is longer. *)
Definition preview (result : string) : string :=
  let resultLines := Js.split result (String "010" EmptyString) in
  let first := List.hd EmptyString resultLines in
  let shown := Js.take 60 first in
  if (1 <? List.length resultLines)%nat then
    (shown ++ " ... +" ++ Js.string_of_nat (List.length resultLines - 1) ++ " lines")%string
  else if (60 <? String.length first)%nat then (shown ++ "...")%string
  else shown.

(** ** An in-memory platform

    A stand-in for Node on which the program can be run inside Rocq: the
    file system is a finite map from paths to contents, JSON is printed
    and parsed by a small codec, patterns are matched as plain text and
    the shell knows one command.  The theorems below hold for every
    platform; this one provides the concrete runs. *)

Module Mem.

Definition dquote : ascii := "034"%char.
Definition backslash : ascii := "092"%char.
Definition newline : ascii := "010"%char.

Fixpoint escape (s : string) : string :=
  match s with
  | EmptyString => EmptyString
  | String c rest =>
      if Ascii.eqb c dquote then String backslash (String dquote (escape rest))
      else if Ascii.eqb c backslash then String backslash (String backslash (escape rest))
      else if Ascii.eqb c newline then String backslash (String "n" (escape rest))
      else String c (escape rest)
  end.

Definition quote (s : string) : string :=
  String dquote (escape s ++ String dquote EmptyString).

Fixpoint stringify (v : json) : string :=
  match v with
  | JNull => "null"
  | JBool true => "true"
  | JBool false => "false"
  | JNum n => Js.string_of_Z n
  | JStr s => quote s
  | JArr items => "[" ++ Js.join (List.map stringify items) "," ++ "]"
  | JObj fields =>
      "{" ++ Js.join (List.map (fun kv => (quote (fst kv) ++ ":" ++ stringify (snd kv))%string) fields) ","
          ++ "}"
  end.

Fixpoint skip_ws (s : string) : string :=
  match s with
  | String c rest =>
      if Ascii.eqb c " " || Ascii.eqb c newline || Ascii.eqb c "009" || Ascii.eqb c "013"
      then skip_ws rest else s
  | EmptyString => s
  end.

(** The characters of a string literal after its opening quote. *)
Fixpoint parse_chars (s : string) : option (string * string) :=
  match s with
  | EmptyString => None
  | String c rest =>
      if Ascii.eqb c dquote then Some (EmptyString, rest)
      else if Ascii.eqb c backslash then
        match rest with
        | String d rest' =>
            let put x := match parse_chars rest' with
                         | Some (t, r) => Some (String x t, r)
                         | None => None
                         end in
            if Ascii.eqb d "n" then put newline
            else if Ascii.eqb d dquote || Ascii.eqb d backslash || Ascii.eqb d "/" then put d
            else None
        | EmptyString => None
        end
      else match parse_chars rest with
           | Some (t, r) => Some (String c t, r)
           | None => None
           end
  end.

Definition digit (c : ascii) : option Z :=
  let n := nat_of_ascii c in
  if (48 <=? n)%nat && (n <=? 57)%nat then Some (Z.of_nat (n - 48)) else None.

Fixpoint parse_digits (s : string) (acc : Z) : Z * string :=
  match s with
  | String c rest =>
      match digit c with
      | Some d => parse_digits rest (10 * acc + d)%Z
      | None => (acc, s)
      end
  | EmptyString => (acc, s)
  end.

Definition parse_number (s : string) : option (Z * string) :=
  match s with
  | String c rest =>
      if Ascii.eqb c "-" then
        match rest with
        | String d _ =>
            match digit d with
            | Some _ => let '(n, r) := parse_digits rest 0 in Some (Z.opp n, r)
            | None => None
            end
        | EmptyString => None
        end
      else match digit c with
           | Some _ => Some (parse_digits s 0)
           | None => None
           end
  | EmptyString => None
  end.

Fixpoint parse_value (fuel : nat) (s : string) {struct fuel} : option (json * string) :=
  match fuel with
  | O => None
  | S f =>
      match skip_ws s with
      | EmptyString => None
      | String c rest as s' =>
          if Js.startsWith s' "null" then Some (JNull, Js.drop 4 s')
          else if Js.startsWith s' "true" then Some (JBool true, Js.drop 4 s')
          else if Js.startsWith s' "false" then Some (JBool false, Js.drop 5 s')
          else if Ascii.eqb c dquote then
            match parse_chars rest with
            | Some (t, r) => Some (JStr t, r)
            | None => None
            end
          else if Ascii.eqb c "[" then
            match skip_ws rest with
            | String "]" r => Some (JArr [], r)
            | _ => match parse_items f rest with
                   | Some (items, r) => Some (JArr items, r)
                   | None => None
                   end
            end
          else if Ascii.eqb c "{" then
            match skip_ws rest with
            | String "}" r => Some (JObj [], r)
            | _ => match parse_members f rest with
                   | Some (fields, r) => Some (JObj fields, r)
                   | None => None
                   end
            end
          else match parse_number s' with
               | Some (n, r) => Some (JNum n, r)
               | None => None
               end
      end
  end
with parse_items (fuel : nat) (s : string) {struct fuel} : option (list json * string) :=
  match fuel with
  | O => None
  | S f =>
      match parse_value f s with
      | Some (v, r) =>
          match skip_ws r with
          | String "," r' =>
              match parse_items f r' with
              | Some (vs, r'') => Some (v :: vs, r'')
              | None => None
              end
          | String "]" r' => Some ([v], r')
          | _ => None
          end
      | None => None
      end
  end
with parse_members (fuel : nat) (s : string) {struct fuel}
    : option (list (string * json) * string) :=
  match fuel with
  | O => None
  | S f =>
      match skip_ws s with
      | String c rest =>
          if Ascii.eqb c dquote then
            match parse_chars rest with
            | Some (k, r) =>
                match skip_ws r with
                | String ":" r1 =>
                    match parse_value f r1 with
                    | Some (v, r2) =>
                        match skip_ws r2 with
                        | String "," r3 =>
                            match parse_members f r3 with
                            | Some (kvs, r4) => Some ((k, v) :: kvs, r4)
                            | None => None
                            end
                        | String "}" r3 => Some ([(k, v)], r3)
                        | _ => None
                        end
                    | None => None
                    end
                | _ => None
                end
            | None => None
            end
          else None
      | EmptyString => None
      end
  end.

Definition parse (s : string) : result json :=
  match parse_value (2 * String.length s + 2) s with
  | Some (v, r) =>
      match skip_ws r with
      | EmptyString => Ok v
      | _ => Throw "Unexpected non-whitespace character after JSON"
      end
  | None => Throw ("Unexpected token in JSON: " ++ s)
  end.

Definition readFileSync (path : option json) (files : gmap string string) : result string :=
  match path with
  | Some (JStr p) =>
      match files !! p with
      | Some text => Ok text
      | None => Throw ("ENOENT: no such file or directory, open '" ++ p ++ "'")
      end
  | _ => Throw "The path argument must be of type string"
  end.

Definition writeFileSync (path data : option json) (files : gmap string string)
    : result unit * gmap string string :=
  match path, data with
  | Some (JStr p), Some (JStr text) => (Ok tt, <[p := text]> files)
  | Some (JStr _), _ => (Throw "The data argument must be of type string", files)
  | _, _ => (Throw "The path argument must be of type string", files)
  end.

(** Whitespace is the space and the control characters from tab to
    carriage return. *)
Definition is_space (c : ascii) : bool :=
  Ascii.eqb c " " || ((9 <=? nat_of_ascii c)%nat && (nat_of_ascii c <=? 13)%nat).

Fixpoint trim_start (s : string) : string :=
  match s with
  | String c rest => if is_space c then trim_start rest else s
  | EmptyString => s
  end.

Definition reverse (s : string) : string :=
  string_of_list_ascii (List.rev (list_ascii_of_string s)).

Definition trim (s : string) : string :=
  reverse (trim_start (reverse (trim_start s))).

(** Decimal integers are read; every other text counts as [NaN], which
    [slice] takes for 0. *)
Definition to_index (s : string) : Js.Index :=
  match parse_number (trim s) with
  | Some (n, EmptyString) => Js.Finite n
  | _ => Js.Finite 0
  end.

(** Patterns are matched as plain text; an opening parenthesis without a
    closing one is the syntax error. *)
Definition regexp (pattern : option json) : result (string -> bool) :=
  match pattern with
  | None => Ok (fun _ => true)
  | Some v =>
      match ToString v with
      | Throw e => Throw e
      | Ok p =>
          if Js.includes p "(" && negb (Js.includes p ")")
          then Throw ("Invalid regular expression: /" ++ p ++ "/: Unterminated group")
          else Ok (fun line => Js.includes line p)
      end
  end.

(** Segments are joined with a slash; the segment [.] is dropped. *)
Definition join_paths (segments : list (option json)) : result string :=
  if List.forallb (fun v => match v with Some (JStr _) => true | _ => false end) segments
  then Ok (Js.join (List.flat_map (fun v => match v with
                                            | Some (JStr seg) =>
                                                if String.eqb seg "." then [] else [seg]
                                            | _ => []
                                            end) segments) "/")
  else Throw "The path argument must be of type string".

(** The search is started and its promise handed back. *)
Definition glob (pattern : string) (nodir : bool) (files : gmap string string)
    : result Promise :=
  Ok unawaited.

(** [echo] is the one command: it prints its argument. *)
Definition exec (cmd : option json) (files : gmap string string)
    : result ExecRun * gmap string string :=
  match cmd with
  | Some (JStr c) =>
      (Ok {| exec_chunks := if Js.startsWith c "echo "
                            then [ (Js.drop 5 c ++ String newline EmptyString)%string ]
                            else [];
             exec_error := None |}, files)
  | _ => (Throw "The command argument must be of type string", files)
  end.

#[export] Instance platform : Platform := {|
  World := gmap string string;
  JSON_stringify := stringify;
  JSON_parse := parse;
  String_trim := trim;
  StringToIndex := to_index;
  RegExp_new := regexp;
  path_join := join_paths;
  fs_readFileSync := readFileSync;
  fs_writeFileSync := writeFileSync;
  globSync := glob;
  child_process_exec := exec
|}.

End Mem.

(** ** Inputs of the runs *)

Definition groq_config : ApiConfig :=
  getApiConfig (fun k => if String.eqb k "GROQ_API_KEY" then Some "gsk" else None).

Definition anthropic_config : ApiConfig :=
  getApiConfig (fun k => if String.eqb k "ANTHROPIC_API_KEY" then Some "sk" else None).

Definition no_files : @World Mem.platform := (∅ : gmap string string).

Definition one_file : @World Mem.platform :=
  ({[ "a.txt" := "foo foo" ]} : gmap string string).

Definition three_lines : @World Mem.platform :=
  ({[ "notes" := ("one" ++ String "010" "two" ++ String "010" "three")%string ]}
   : gmap string string).

(** [{ type: 'tool_use', id: 't1', name: 'glob', input: { pat: '*.ts' } }] *)
Definition glob_call : ContentBlock :=
  tool_use_block (Some "t1") (Some "glob") (Some (JObj [("pat", JStr "*.ts")])).

(** [edit] asked to replace [foo], which occurs twice, without [all]. *)
Definition edit_args : ToolArgs :=
  JObj [("path", JStr "a.txt"); ("old", JStr "foo"); ("new", JStr "bar")].

(** [edit] asked to replace [foo ], which occurs once, without [all]. *)
Definition edit_once : ToolArgs :=
  JObj [("path", JStr "a.txt"); ("old", JStr "foo "); ("new", JStr "bar ")].

(** The same edit with [all]. *)
Definition edit_once_all : ToolArgs :=
  JObj [("path", JStr "a.txt"); ("old", JStr "foo "); ("new", JStr "bar ");
        ("all", JBool true)].

(** [edit] asked to replace every [foo] by [foo]. *)
Definition edit_same : ToolArgs :=
  JObj [("path", JStr "a.txt"); ("old", JStr "foo"); ("new", JStr "foo");
        ("all", JBool true)].

(** [{ type: 'tool_use', id: 't2', name: 'write', input: { path: {
    toString: 1 }, content: 'x' } }]: the header line of this call cannot
    be printed. *)
Definition headless_call : ContentBlock :=
  tool_use_block (Some "t2") (Some "write")
    (Some (JObj [("path", JObj [("toString", JNum 1)]); ("content", JStr "x")])).

(** [{ type: 'tool_use', id: 't1', name: 'write', input: { path: 'b.txt',
    content: 'new' } }] *)
Definition write_call : ContentBlock :=
  tool_use_block (Some "t1") (Some "write")
    (Some (JObj [("path", JStr "b.txt"); ("content", JStr "new")])).

(** Both keys of the chat-with-tool-calls families are set. *)
Definition both_keys (k : string) : option string :=
  if String.eqb k "OPENROUTER_API_KEY" then Some "or-key"
  else if String.eqb k "GROQ_API_KEY" then Some "gsk"
  else None.

Definition model_set (k : string) : option string :=
  if String.eqb k "MODEL" then Some "tiny" else None.

(** A tool call whose arguments parse, and one whose arguments do not. *)
Definition good_call : ToolCall :=
  {| tc_id := Some "c1"; tc_type := "function";
     tc_function := {| fc_name := Some "glob";
                       fc_arguments := Some "{}" |} |}.

Definition bad_call : ToolCall :=
  {| tc_id := Some "c2"; tc_type := "function";
     tc_function := {| fc_name := Some "glob"; fc_arguments := Some "{pat" |} |}.

(** The replies of a turn with one call of [glob] and a text answer. *)
Definition glob_then_text : list Reply :=
  [ HttpOk {| resp_choices := None; resp_content := Some [glob_call] |};
    HttpOk {| resp_choices := None; resp_content := Some [text_block "none found"] |} ].

(** * Properties *)

(** ** The primitives on examples *)

Example split_example : Js.split "a,b,,c" "," = ["a"; "b"; ""; "c"].
Proof. reflexivity. Qed.

Example split_empty_text : Js.split "" "x" = [""].
Proof. reflexivity. Qed.

Example match_count_overlap : Js.match_count "aaaa" "aa" = 2.
Proof. reflexivity. Qed.

Example replace_dollar : Js.replace "x=1" "1" "[$&$$$`]" = "x=[1$x=]".
Proof. reflexivity. Qed.

Example string_of_Z_neg : Js.string_of_Z (-12) = "-12".
Proof. reflexivity. Qed.

Example ToString_array :
  ToString (JArr [JNum 1; JNull; JStr "a"; JArr [JBool true]]) = Ok "1,,a,true".
Proof. reflexivity. Qed.

Example ToString_object :
  ToString (JObj [("path", JStr "a.txt")]) = Ok "[object Object]"
  /\ ToString (JObj [("toString", JNum 1)]) = Throw "Cannot convert object to primitive value"
  /\ ToString (JArr [JNum 1; JObj [("toString", JNull)]])
     = Throw "Cannot convert object to primitive value".
Proof. repeat split; reflexivity. Qed.

Example argPreview_examples :
  argPreview (JObj [("path", JStr "a.txt"); ("offset", JNum 3)]) = Ok "a.txt"
  /\ argPreview (JObj []) = Ok ""
  /\ argPreview (JObj [("limit", JNum 0)]) = Ok ""
  /\ argPreview (JStr "ls") = Ok "l"
  /\ argPreview (JObj [("path", JObj [("toString", JNum 1)])])
     = Throw "Cannot convert object to primitive value".
Proof. repeat split; reflexivity. Qed.

Example stringify_object :
  Mem.parse (Mem.stringify (JObj [("pat", JStr "*.ts"); ("n", JArr [JNum (-3); JNull; JBool true])]))
  = Ok (JObj [("pat", JStr "*.ts"); ("n", JArr [JNum (-3); JNull; JBool true])]).
Proof. vm_compute. reflexivity. Qed.

Example parse_undefined : exists msg, Mem.parse "undefined" = Throw msg.
Proof. eexists. vm_compute. reflexivity. Qed.

(** ** Strings *)

Lemma startsWith_app (p s : string) : Js.startsWith (p ++ s) p = true.
Proof.
  induction p as [|a p IH]; simpl; [reflexivity|].
  now rewrite Ascii.eqb_refl, IH.
Qed.

(** What [runTool] makes of a thrown message starts with [error:]. *)
Lemma error_prefix (msg : string) : Js.startsWith ("error: " ++ msg) "error:" = true.
Proof. exact (startsWith_app "error:" (" " ++ msg)). Qed.

(** ** The tool registry *)

Section ToolFacts.
Context {P : Platform}.

Lemma call_tool_unregistered (name : string) (args : ToolArgs) (w : World) :
  assoc name TOOLS = None ->
  exists msg, call_tool name args w = (Throw msg, w).
Proof.
  intros Hnone. unfold call_tool. rewrite Hnone.
  destruct (existsb (String.eqb name) inherited_names); eexists; reflexivity.
Qed.

Lemma runTool_of_throw (name : string) (args : ToolArgs) (w w' : World) (msg : string) :
  call_tool name args w = (Throw msg, w') ->
  runTool name args w = (("error: " ++ msg)%string, w').
Proof. intros H. unfold runTool. now rewrite H. Qed.

Lemma runTool_of_ok (name : string) (args : ToolArgs) (w w' : World) (s : string) :
  call_tool name args w = (Ok s, w') ->
  runTool name args w = (s, w').
Proof. intros H. unfold runTool. now rewrite H. Qed.

(** The failures the tools meet first: a file that cannot be read, a
    pattern that does not compile. *)
Lemma unreadable_file_is_error (args : ToolArgs) (w : World) (msg : string) :
  fs_readFileSync (prop args "path") w = Throw msg ->
  runTool "read" args w = (("error: " ++ msg)%string, w)
  /\ runTool "edit" args w = (("error: " ++ msg)%string, w).
Proof.
  intros Hread. split; apply runTool_of_throw; unfold call_tool; simpl.
  - unfold readFile. now rewrite Hread.
  - unfold editFile. now rewrite Hread.
Qed.

Lemma invalid_regex_is_error (args : ToolArgs) (w : World) (msg : string) :
  RegExp_new (prop args "pat") = Throw msg ->
  runTool "grep" args w = (("error: " ++ msg)%string, w).
Proof.
  intros Hre. apply runTool_of_throw. unfold call_tool. simpl.
  unfold grepFiles. now rewrite Hre.
Qed.

(** C3. [runTool] is total: whatever the name and the arguments, it hands
    back a string (and the world the tool left).  For a name that is not
    registered, and whenever the registered tool throws, that string starts
    with [error:]; when the tool returns, its string is passed on as it
    is. *)
Theorem runTool_never_throws (name : string) (args : ToolArgs) (w : World) :
  (exists s w', runTool name args w = (s, w'))
  /\ (assoc name TOOLS = None ->
      Js.startsWith (fst (runTool name args w)) "error:" = true
      /\ snd (runTool name args w) = w)
  /\ (forall def msg w',
        assoc name TOOLS = Some def -> fn def args w = (Throw msg, w') ->
        runTool name args w = (("error: " ++ msg)%string, w')
        /\ Js.startsWith (fst (runTool name args w)) "error:" = true)
  /\ (forall def s w',
        assoc name TOOLS = Some def -> fn def args w = (Ok s, w') ->
        runTool name args w = (s, w')).
Proof.
  split; [|split; [|split]].
  - destruct (runTool name args w) as [s w'] eqn:E. now exists s, w'.
  - intros Hnone.
    destruct (call_tool_unregistered name args w Hnone) as [msg Hmsg].
    rewrite (runTool_of_throw _ _ _ _ _ Hmsg). split; [apply error_prefix|reflexivity].
  - intros def msg w' Hdef Hfn.
    assert (Hcall : call_tool name args w = (Throw msg, w')).
    { unfold call_tool. now rewrite Hdef. }
    rewrite (runTool_of_throw _ _ _ _ _ Hcall). split; [reflexivity|apply error_prefix].
  - intros def s w' Hdef Hfn.
    apply runTool_of_ok. unfold call_tool. now rewrite Hdef.
Qed.

(** C10. When [editFile] returns a string that starts with [error:], the
    world, and with it every file, is what it was; the file was read, and
    either the old string is not in it or it occurs more than once and
    [all] is not set. *)
Theorem editFile_error_leaves_file (args : ToolArgs) (w w' : World) (s : string) :
  editFile args w = (Ok s, w') ->
  Js.startsWith s "error:" = true ->
  w' = w
  /\ exists text,
       fs_readFileSync (prop args "path") w = Ok text
       /\ ((exists searched, ToString_opt (prop args "old") = Ok searched
                             /\ Js.includes text searched = false)
           \/ (truthy (prop args "all") = false
               /\ exists old, prop args "old" = Some (JStr old)
                              /\ 1 < Js.match_count text old)).
Proof.
  unfold editFile. intros Hrun Hpre.
  destruct (fs_readFileSync (prop args "path") w) as [text|e] eqn:Hread; [|discriminate].
  destruct (ToString_opt (prop args "old")) as [searched|e] eqn:Hsearched; [|discriminate].
  destruct (Js.includes text searched) eqn:Hinc; simpl in Hrun.
  - destruct (prop args "old") as [[| | |old| |]|] eqn:Hold; try discriminate.
    destruct (truthy (prop args "all")) eqn:Hall; simpl in Hrun.
    + destruct (match prop args "new" with None => Ok "," | Some v => ToString v end);
        [|discriminate].
      destruct (fs_writeFileSync _ _ w) as [[[]|e] w1]; inversion Hrun; subst.
      discriminate.
    + destruct (1 <? Js.match_count text old)%nat eqn:Hcount.
      * inversion Hrun; subst. split; [reflexivity|].
        exists text. split; [reflexivity|]. right. split; [reflexivity|].
        exists old. split; [reflexivity|]. now apply Nat.ltb_lt.
      * destruct (ToString_opt (prop args "new")); [|discriminate].
        destruct (fs_writeFileSync _ _ w) as [[[]|e] w1]; inversion Hrun; subst.
        discriminate.
  - inversion Hrun; subst. split; [reflexivity|].
    exists text. split; [reflexivity|]. left. now exists searched.
Qed.

End ToolFacts.

(** ** Schemas *)

Section SchemaFacts.
Context {P : Platform}.

(** The inner loop only ever appends: one property per parameter, one
    required name per parameter without the marker. *)
Lemma schema_params_spec (ps : list (string * string)) :
  forall props req,
    schema_params ps props req
    = (props ++ List.map (fun pt => (fst pt, emitted_type (snd pt))) ps,
       req ++ List.map fst (List.filter (fun pt => negb (Js.endsWith (snd pt) "?")) ps)).
Proof.
  induction ps as [|[paramName paramType] ps IH]; intros props req; simpl.
  - now rewrite !app_nil_r.
  - rewrite IH. unfold emitted_type at 2.
    destruct (Js.endsWith paramType "?"); simpl; now rewrite <- !app_assoc.
Qed.

Lemma tool_schema_spec (name : string) (def : ToolDefinition) :
  tool_schema (name, def)
  = {| schema_name := name;
       schema_description := description def;
       input_schema :=
         {| schema_type := "object";
            properties := List.map (fun pt => (fst pt, emitted_type (snd pt))) (params def);
            required := List.map fst (List.filter (fun pt => negb (Js.endsWith (snd pt) "?"))
                                                  (params def)) |} |}.
Proof. unfold tool_schema. now rewrite schema_params_spec. Qed.

Ltac use_member H :=
  repeat (destruct H as [H|H]; [inversion H; subst; clear H|]); try contradiction.

Ltac settle_required :=
  split;
  [ intros Hin; first [ reflexivity | simpl in Hin; use_member Hin ]
  | intros Hopt; first [ discriminate Hopt | simpl; tauto ] ].

(** C8. For every registered tool and every parameter it declares, the
    schema of that tool lists the parameter as required exactly when the
    declared type does not end with [?], and gives it the declared type
    without the marker, except that [number] becomes [integer]. *)
Theorem makeSchema_required_and_types
    (name : string) (def : ToolDefinition) (paramName paramType : string) :
  In (name, def) TOOLS ->
  In (paramName, paramType) (params def) ->
  exists schema,
    In schema makeSchema
    /\ schema_name schema = name
    /\ (In paramName (required (input_schema schema)) <-> Js.endsWith paramType "?" = false)
    /\ assoc paramName (properties (input_schema schema))
       = Some (if String.eqb (without_marker paramType) "number" then "integer"
               else without_marker paramType).
Proof.
  intros Htool Hparam.
  exists (tool_schema (name, def)). split.
  { unfold makeSchema. now apply (in_map tool_schema). }
  rewrite tool_schema_spec. simpl.
  split; [reflexivity|].
  unfold TOOLS in Htool. simpl in Htool. use_member Htool;
    simpl in Hparam; use_member Hparam; simpl;
    (split; [settle_required | reflexivity]).
Qed.

End SchemaFacts.

(** ** The protocol adapter *)

Section AdapterFacts.
Context {P : Platform}.

Lemma decode_tool_calls_portable (tus : list ContentBlock) :
  Forall portable_tool_use tus ->
  forall acc,
    decode_tool_calls (List.map tool_call_of tus) acc = Ok (acc ++ tus).
Proof.
  induction 1 as [|b tus Hb _ IH]; intros acc; simpl.
  - now rewrite app_nil_r.
  - destruct Hb as (id & name & input & -> & Hjson). simpl.
    rewrite Hjson, IH. now rewrite <- app_assoc.
Qed.

Lemma portable_filter (bs : list ContentBlock) :
  (forall b, In b bs -> is_tool_use b = true -> portable_tool_use b) ->
  Forall portable_tool_use (List.filter is_tool_use bs).
Proof.
  intros H. apply List.Forall_forall. intros b Hb.
  apply filter_In in Hb. destruct Hb as [Hin Htu]. now apply H.
Qed.

(** C1, as the code has it.  For an assistant message whose [tool_use]
    blocks are portable, decoding the response built from its encoding
    yields the first text block of the message, if its text is not empty,
    followed by every [tool_use] block of the message, unchanged and in
    the original order.  Nothing else comes back. *)
Theorem assistant_round_trip (config : ApiConfig) (bs : list ContentBlock) :
  provider config = groq ->
  (forall b, In b bs -> is_tool_use b = true -> portable_tool_use b) ->
  exists m,
    encode_message {| role := assistant; content := Blocks bs |} = [m]
    /\ decode config (response_of_chat m)
       = Ok (surviving_text bs ++ List.filter is_tool_use bs).
Proof.
  intros Hgroq Hport. exists (encode_assistant bs). split; [reflexivity|].
  unfold decode. rewrite Hgroq. simpl.
  pose proof (portable_filter bs Hport) as Hall.
  unfold surviving_text.
  set (text := match List.find is_text bs with
               | Some b => match b_text b with
                           | Some t => if String.eqb t "" then None else Some t
                           | None => None
                           end
               | None => None
               end).
  assert (Htext :
    match text with
    | Some t => if String.eqb t "" then [] else [text_block t]
    | None => []
    end
    = match List.find is_text bs with
      | Some b => match b_text b with
                  | Some t => if String.eqb t "" then [] else [text_block t]
                  | None => []
                  end
      | None => []
      end).
  { unfold text. destruct (List.find is_text bs) as [b|]; [|reflexivity].
    destruct (b_text b) as [t|]; [|reflexivity].
    destruct (String.eqb t "") eqn:E; [reflexivity|]. now rewrite E. }
  rewrite Htext.
  destruct (List.filter is_tool_use bs) as [|tu tus] eqn:Htus.
  - now rewrite app_nil_r.
  - now rewrite (decode_tool_calls_portable (tu :: tus) Hall).
Qed.

Lemma openAiMessages_app (before after : list Message) (systemPrompt : string) :
  openAiMessages (before ++ after) systemPrompt
  = openAiMessages before systemPrompt ++ List.flat_map encode_message after.
Proof. unfold openAiMessages. now rewrite flat_map_app. Qed.

(** C5, as the code has it.  Wherever a user message with an array of
    tool results stands in the history, the encoding has exactly one chat
    message for it, of role [tool]; its [tool_call_id] is the
    [tool_use_id] of the first block when that is a non-empty string, and
    [unknown] when the array is empty or that id is absent or empty.  The
    blocks after the first have no part in it. *)
Theorem tool_results_encoded_once
    (before after : list Message) (bs : list ContentBlock) (systemPrompt : string) :
  openAiMessages (before ++ {| role := user; content := Blocks bs |} :: after) systemPrompt
  = openAiMessages before systemPrompt ++ tool_message bs :: List.flat_map encode_message after.
Proof.
  rewrite openAiMessages_app. simpl. unfold tool_message, first_tool_use_id, str_or.
  destruct bs as [|b rest]; reflexivity.
Qed.

End AdapterFacts.

(** ** The agent loop *)

Section LoopFacts.
Context {P : Platform}.

Lemma run_tools_length (calls : list (string * json)) :
  forall w, List.length (fst (run_tools calls w)) = List.length calls.
Proof.
  induction calls as [|[n a] calls IH]; intros w; simpl; [reflexivity|].
  destruct (runTool n a w) as [r w1]. specialize (IH w1).
  destruct (run_tools calls w1) as [rs w2]. simpl in *. now rewrite IH.
Qed.

Lemma invocations_app (a b : list Event) :
  invocations (a ++ b) = invocations a ++ invocations b.
Proof. unfold invocations. apply flat_map_app. Qed.

Lemma fetches_app (a b : list Event) : fetches (a ++ b) = fetches a ++ fetches b.
Proof. unfold fetches. apply flat_map_app. Qed.

Lemma run_tools_app (a b : list (string * json)) :
  forall w,
    run_tools (a ++ b) w
    = (fst (run_tools a w) ++ fst (run_tools b (snd (run_tools a w))),
       snd (run_tools b (snd (run_tools a w)))).
Proof.
  induction a as [|[n x] a IH]; intros w; simpl.
  - now destruct (run_tools b w).
  - destruct (runTool n x w) as [r w1]. rewrite IH.
    destruct (run_tools a w1) as [rs w2]. simpl.
    now destruct (run_tools b w2).
Qed.

Lemma replays_none (w : World) (evs : list Event) :
  invocations evs = [] -> replays w evs w.
Proof. unfold replays. now intros ->. Qed.

Lemma replays_app (w w1 w2 : World) (a b : list Event) :
  replays w a w1 -> replays w1 b w2 -> replays w (a ++ b) w2.
Proof.
  unfold replays. intros Ha Hb.
  rewrite invocations_app, !List.map_app, run_tools_app, Ha. simpl. now rewrite Hb.
Qed.

(** What the loop over the content blocks does: the history is not
    touched, the tools of the [tool_use] blocks are run in the order of the
    blocks, and one result block per [tool_use] block is added, as long
    as the header lines can be printed. *)
Lemma dispatch_cons (block : ContentBlock) (rest toolResults : list ContentBlock) (st : State) :
  dispatch (block :: rest) toolResults st
  = let st1 := if is_text block
               then emit (EvLog (AssistantText (str_or (b_text block) ""))) st else st in
    if is_tool_use block then
      match argPreview (snd (invocation_of block)) with
      | Throw msg => (Throw msg, st1)
      | Ok _ =>
          let '(result, w) :=
            runTool (fst (invocation_of block)) (snd (invocation_of block)) (world st1) in
          dispatch rest (toolResults ++ [tool_result_block (b_id block) result])
            (emit (EvLog (ToolPreview result))
               (emit (EvTool (fst (invocation_of block)) (snd (invocation_of block)) result)
                  (set_world w
                     (emit (EvLog (ToolHeader (fst (invocation_of block))
                                              (snd (invocation_of block))))
                           st1))))
      end
    else dispatch rest toolResults st1.
Proof. reflexivity. Qed.

(** The text of a block is shown, or nothing is. *)
Lemma text_shown (block : ContentBlock) (st : State) :
  exists pre,
    (if is_text block
     then emit (EvLog (AssistantText (str_or (b_text block) ""))) st else st)
    = {| messages := messages st; world := world st; trace := trace st ++ pre |}
    /\ invocations pre = [] /\ forallb quiet pre = true.
Proof.
  destruct (is_text block).
  - eexists [_]. unfold emit. simpl. auto.
  - exists []. rewrite app_nil_r. destruct st; auto.
Qed.

Lemma run_tools_cons (block : ContentBlock) (calls : list (string * json)) (w : World) :
  run_tools (invocation_of block :: calls) w
  = let '(result, w1) := runTool (fst (invocation_of block)) (snd (invocation_of block)) w in
    (result :: fst (run_tools calls w1), snd (run_tools calls w1)).
Proof.
  unfold invocation_of. simpl.
  destruct (runTool _ _ w) as [r w1]. now destruct (run_tools calls w1).
Qed.

Lemma dispatch_spec (contentBlocks : list ContentBlock) :
  forall toolResults st,
  forallb header_prints (List.filter is_tool_use contentBlocks) = true ->
  exists evs,
    let uses := List.filter is_tool_use contentBlocks in
    let calls := List.map invocation_of uses in
    let ran := run_tools calls (world st) in
    dispatch contentBlocks toolResults st
    = (Ok (toolResults ++ results_for uses (fst ran)),
       {| messages := messages st; world := snd ran; trace := trace st ++ evs |})
    /\ invocations evs = calls_with calls (fst ran)
    /\ forallb quiet evs = true.
Proof.
  induction contentBlocks as [|block rest IH]; intros toolResults st Hprints.
  - exists []. simpl. rewrite !app_nil_r. destruct st; auto.
  - rewrite dispatch_cons. cbn zeta.
    set (st1 := if is_text block
                then emit (EvLog (AssistantText (str_or (b_text block) ""))) st else st).
    destruct (text_shown block st) as (pre & Hst1 & Hpre_inv & Hpre_quiet).
    fold st1 in Hst1.
    cbn [List.filter] in Hprints |- *.
    destruct (is_tool_use block) eqn:Huse.
    + cbn [forallb] in Hprints. apply andb_prop in Hprints.
      destruct Hprints as [Hblock Hprints].
      unfold header_prints in Hblock. change (input_or_empty (b_input block))
        with (snd (invocation_of block)) in Hblock.
      destruct (argPreview (snd (invocation_of block))) as [shown|msg]; [|discriminate].
      specialize (fun acc s => IH acc s Hprints).
      cbn [List.map]. rewrite run_tools_cons.
      replace (world st1) with (world st) by now rewrite Hst1.
      destruct (runTool (invocation_of block).1 (invocation_of block).2 (world st))
        as [result w1] eqn:Hrun.
      match goal with |- context [dispatch rest ?acc ?s] =>
        destruct (IH acc s) as (evs & Hd & Hinv & Hq) end.
      cbn zeta in Hd, Hinv. rewrite Hd. clear Hd.
      rewrite Hst1. unfold emit, set_world. cbn [messages world trace fst snd].
      eexists. split; [|split].
      * unfold results_for. cbn [List.combine List.map fst snd].
        rewrite <- !app_assoc. cbn [app]. reflexivity.
      * rewrite !invocations_app, Hpre_inv.
        unfold invocations in Hinv |- *. unfold calls_with in Hinv |- *.
        cbn [app flat_map List.combine]. rewrite Hinv. unfold invocation_of. reflexivity.
      * rewrite !forallb_app, Hpre_quiet. cbn [forallb quiet andb]. exact Hq.
    + destruct (IH toolResults st1 Hprints) as (evs & Hd & Hinv & Hq).
      cbn zeta in Hd, Hinv. rewrite Hd. clear Hd.
      rewrite Hst1 in Hinv |- *. cbn [messages world trace] in Hinv |- *.
      eexists. split; [|split].
      * rewrite <- !app_assoc. reflexivity.
      * rewrite invocations_app, Hpre_inv. exact Hinv.
      * rewrite forallb_app, Hpre_quiet. exact Hq.
Qed.

(** When a header line cannot be printed, the loop over the blocks
    throws: the history is not touched, and the tools of the blocks
    before that one have run. *)
Lemma dispatch_throw (contentBlocks : list ContentBlock) :
  forall toolResults st,
  forallb header_prints (List.filter is_tool_use contentBlocks) = false ->
  exists msg evs w',
    dispatch contentBlocks toolResults st
    = (Throw msg, {| messages := messages st; world := w'; trace := trace st ++ evs |})
    /\ forallb quiet evs = true
    /\ replays (world st) evs w'.
Proof.
  induction contentBlocks as [|block rest IH]; intros toolResults st Hprints;
    [discriminate|].
  rewrite dispatch_cons. cbn zeta.
  set (st1 := if is_text block
              then emit (EvLog (AssistantText (str_or (b_text block) ""))) st else st).
  destruct (text_shown block st) as (pre & Hst1 & Hpre_inv & Hpre_quiet).
  fold st1 in Hst1.
  cbn [List.filter] in Hprints.
  destruct (is_tool_use block) eqn:Huse.
  - cbn [forallb] in Hprints. unfold header_prints at 1 in Hprints.
    change (input_or_empty (b_input block)) with (snd (invocation_of block)) in Hprints.
    destruct (argPreview (snd (invocation_of block))) as [shown|msg].
    + cbn [andb] in Hprints.
      replace (world st1) with (world st) by now rewrite Hst1.
      destruct (runTool (invocation_of block).1 (invocation_of block).2 (world st))
        as [result w1] eqn:Hrun.
      match goal with |- context [dispatch rest ?acc ?s] =>
        destruct (IH acc s Hprints) as (msg & evs & w' & Hd & Hq & Hr) end.
      rewrite Hd. clear Hd.
      rewrite Hst1 in Hr |- *. unfold emit, set_world in Hr |- *.
      cbn [messages world trace] in Hr |- *.
      exists msg,
        (pre ++ [ EvLog (ToolHeader (invocation_of block).1 (invocation_of block).2);
                  EvTool (invocation_of block).1 (invocation_of block).2 result;
                  EvLog (ToolPreview result) ] ++ evs), w'.
      split; [|split].
      * rewrite <- !app_assoc. reflexivity.
      * rewrite !forallb_app, Hpre_quiet, Hq. reflexivity.
      * apply (replays_app _ (world st)); [now apply replays_none|].
        apply (replays_app _ w1); [|exact Hr].
        unfold replays. cbn [invocations flat_map app List.map fst snd run_tools].
        now rewrite Hrun.
    + exists msg, pre, (world st). rewrite Hst1.
      split; [reflexivity|]. split; [exact Hpre_quiet|]. now apply replays_none.
  - destruct (IH toolResults st1 Hprints) as (msg & evs & w' & Hd & Hq & Hr).
    rewrite Hd. rewrite Hst1 in Hr |- *. cbn [messages world trace] in Hr |- *.
    exists msg, (pre ++ evs), w'.
    split; [now rewrite <- app_assoc|]. split.
    + now rewrite forallb_app, Hpre_quiet.
    + apply (replays_app _ (world st)); [now apply replays_none|exact Hr].
Qed.

Lemma quiet_fetches (evs : list Event) : forallb quiet evs = true -> fetches evs = [].
Proof.
  induction evs as [|e evs IH]; simpl; [reflexivity|].
  intros H. apply andb_prop in H. destruct H as [He Hevs].
  destruct e; try discriminate; simpl; auto.
Qed.

Lemma results_for_ids (uses : list ContentBlock) :
  forall results,
    List.length results = List.length uses ->
    List.map b_tool_use_id (results_for uses results) = List.map b_id uses.
Proof.
  induction uses as [|u uses IH]; intros [|r results] Hlen; simpl in *;
    try reflexivity; try discriminate.
  unfold results_for in IH. rewrite IH; [reflexivity|]. now injection Hlen.
Qed.

Lemma results_for_contents (uses : list ContentBlock) :
  forall results,
    List.length results = List.length uses ->
    List.map b_content (results_for uses results) = List.map Some results.
Proof.
  induction uses as [|u uses IH]; intros [|r results] Hlen; simpl in *;
    try reflexivity; try discriminate.
  unfold results_for in IH. rewrite IH; [reflexivity|]. now injection Hlen.
Qed.

Lemma results_for_types (uses : list ContentBlock) (results : list string) :
  Forall (fun r => b_type r = "tool_result") (results_for uses results).
Proof.
  unfold results_for. apply List.Forall_forall. intros r Hr.
  apply in_map_iff in Hr. destruct Hr as (br & <- & _). reflexivity.
Qed.

Lemma calls_with_fst (calls : list (string * json)) :
  forall results,
    List.length results = List.length calls ->
    List.map fst (calls_with calls results) = calls.
Proof.
  induction calls as [|c calls IH]; intros [|r results] Hlen; simpl in *;
    try reflexivity; try discriminate.
  unfold calls_with in IH. rewrite IH; [reflexivity|]. now injection Hlen.
Qed.

Lemma calls_with_snd (calls : list (string * json)) :
  forall results,
    List.length results = List.length calls ->
    List.map snd (calls_with calls results) = results.
Proof.
  induction calls as [|c calls IH]; intros [|r results] Hlen; simpl in *;
    try reflexivity; try discriminate.
  unfold calls_with in IH. rewrite IH; [reflexivity|]. now injection Hlen.
Qed.

Lemma process_response_spec (contentBlocks : list ContentBlock) (st : State) :
  forallb header_prints (List.filter is_tool_use contentBlocks) = true ->
  exists evs,
    let uses := List.filter is_tool_use contentBlocks in
    let calls := List.map invocation_of uses in
    let ran := run_tools calls (world st) in
    let results := results_for uses (fst ran) in
    process_response contentBlocks st
    = (Ok (match results with [] => false | _ => true end),
       {| messages := messages st ++ appended contentBlocks results;
          world := snd ran;
          trace := trace st ++ evs ++ List.map EvPush (appended contentBlocks results) |})
    /\ invocations evs = calls_with calls (fst ran)
    /\ forallb quiet evs = true.
Proof.
  intros Hprints.
  destruct (dispatch_spec contentBlocks [] st Hprints) as (evs & Hd & Hinv & Hq).
  cbn zeta in Hd, Hinv. exists evs. cbn zeta.
  unfold process_response. rewrite Hd. cbn [app].
  split; [|split]; [|exact Hinv|exact Hq].
  unfold push, appended. cbn [messages world trace].
  destruct (results_for _ _) as [|r rs]; cbn [List.map]; rewrite <- ?app_assoc; reflexivity.
Qed.

Lemma process_response_throw (contentBlocks : list ContentBlock) (st : State) :
  forallb header_prints (List.filter is_tool_use contentBlocks) = false ->
  exists msg evs w',
    process_response contentBlocks st
    = (Throw msg, {| messages := messages st; world := w'; trace := trace st ++ evs |})
    /\ forallb quiet evs = true
    /\ replays (world st) evs w'.
Proof.
  intros Hprints.
  destruct (dispatch_throw contentBlocks [] st Hprints) as (msg & evs & w' & Hd & Hq & Hr).
  exists msg, evs, w'. unfold process_response. now rewrite Hd.
Qed.

(** Without a [tool_use] block there is no header line to print. *)
Lemma no_tool_use_prints (contentBlocks : list ContentBlock) :
  List.filter is_tool_use contentBlocks = [] ->
  forallb header_prints (List.filter is_tool_use contentBlocks) = true.
Proof. now intros ->. Qed.

Lemma answers_to_none (id : option string) (results : list ContentBlock) :
  ~ In id (List.map b_tool_use_id results) -> answers_to id results = [].
Proof.
  induction results as [|r results IH]; simpl; intros Hnot; [reflexivity|].
  destruct (bool_decide_reflect (b_tool_use_id r = id)) as [Heq|Hne].
  - exfalso. apply Hnot. now left.
  - apply IH. intros Hin. apply Hnot. now right.
Qed.

Lemma answers_to_one (id : option string) (results : list ContentBlock) :
  List.NoDup (List.map b_tool_use_id results) ->
  In id (List.map b_tool_use_id results) ->
  List.length (answers_to id results) = 1.
Proof.
  induction results as [|r results IH]; simpl; intros Hnd Hin; [contradiction|].
  apply List.NoDup_cons_iff in Hnd. destruct Hnd as [Hfresh Hnd].
  destruct (bool_decide_reflect (b_tool_use_id r = id)) as [Heq|Hne].
  - subst id. simpl. fold (answers_to (b_tool_use_id r) results).
    now rewrite (answers_to_none _ _ Hfresh).
  - destruct Hin as [Heq|Hin]; [contradiction|]. now apply IH.
Qed.

(** C2, as the code has it.  When one response is processed and the
    header line of each of its [tool_use] blocks can be printed, the tools
    of these blocks are called one after the other in the order of the
    blocks, each in the world the one before left; the results appended
    to the history are, in that same order, one [tool_result] block per
    [tool_use] block, with the id of that block and the string its call
    returned, and no other block.  When the ids of the [tool_use] blocks
    are pairwise distinct, exactly one result carries the id of each. *)
Theorem tool_results_correlated (contentBlocks : list ContentBlock) (st : State) :
  forallb header_prints (List.filter is_tool_use contentBlocks) = true ->
  exists results evs,
    let uses := List.filter is_tool_use contentBlocks in
    let st' := snd (process_response contentBlocks st) in
    messages st' = messages st ++ appended contentBlocks results
    /\ trace st' = trace st ++ evs ++ List.map EvPush (appended contentBlocks results)
    /\ List.length results = List.length uses
    /\ List.map b_tool_use_id results = List.map b_id uses
    /\ Forall (fun r => b_type r = "tool_result") results
    /\ List.map fst (invocations evs) = List.map invocation_of uses
    /\ List.map b_content results = List.map (fun call => Some (snd call)) (invocations evs)
    /\ (List.map snd (invocations evs), world st')
       = run_tools (List.map invocation_of uses) (world st)
    /\ (List.NoDup (List.map b_id uses) ->
        forall u, In u uses -> List.length (answers_to (b_id u) results) = 1).
Proof.
  intros Hprints.
  destruct (process_response_spec contentBlocks st Hprints) as (evs & Hp & Hinv & Hq).
  cbn zeta in Hp, Hinv.
  set (uses := List.filter is_tool_use contentBlocks) in *.
  set (calls := List.map invocation_of uses) in *.
  pose proof (run_tools_length calls (world st)) as Hlen.
  destruct (run_tools calls (world st)) as [rs w'] eqn:Hran.
  cbn [fst snd] in *.
  assert (Hlen' : List.length rs = List.length uses).
  { rewrite Hlen. unfold calls. apply length_map. }
  exists (results_for uses rs), evs. cbn zeta. rewrite Hp. cbn [snd messages trace world].
  repeat split.
  - unfold results_for. rewrite length_map, length_combine. lia.
  - now apply results_for_ids.
  - apply results_for_types.
  - rewrite Hinv. now apply calls_with_fst.
  - rewrite Hinv, results_for_contents by exact Hlen'.
    rewrite <- (calls_with_snd calls rs Hlen) at 1. now rewrite List.map_map.
  - rewrite Hinv, calls_with_snd by exact Hlen. symmetry. exact Hran.
  - intros Hnd u Hu. apply answers_to_one.
    + now rewrite results_for_ids.
    + rewrite results_for_ids by exact Hlen'. now apply in_map.
Qed.

(** C4, as the code has it.  When one response is processed and the
    header line of each of its [tool_use] blocks can be printed, the tools
    of all these blocks are called first, in the order of the blocks and
    with the history as the request left it; only then is the assistant
    message appended, and right after it the message with the results of
    these calls, if there is one. *)
Theorem assistant_pushed_after_tools (contentBlocks : list ContentBlock) (st : State) :
  forallb header_prints (List.filter is_tool_use contentBlocks) = true ->
  let uses := List.filter is_tool_use contentBlocks in
  let calls := List.map invocation_of uses in
  let ran := run_tools calls (world st) in
  let results := results_for uses (fst ran) in
  let st' := snd (process_response contentBlocks st) in
  exists evs,
    trace st'
    = trace st ++ evs
      ++ EvPush {| role := assistant; content := Blocks contentBlocks |}
         :: match results with
            | [] => []
            | _ => [EvPush {| role := user; content := Blocks results |}]
            end
    /\ forallb quiet evs = true
    /\ List.map fst (invocations evs) = calls
    /\ List.map snd (invocations evs) = fst ran
    /\ messages st' = messages st ++ appended contentBlocks results
    /\ world st' = snd ran.
Proof.
  intros Hprints uses calls ran results st'.
  destruct (process_response_spec contentBlocks st Hprints) as (evs & Hp & Hinv & Hq).
  cbn zeta in Hp, Hinv. fold uses calls ran results in Hp, Hinv.
  pose proof (run_tools_length calls (world st)) as Hlen. fold ran in Hlen.
  exists evs. unfold st'. rewrite Hp. cbn [snd trace messages world].
  split; [|split; [|split; [|split; [|split]]]]; try reflexivity.
  - unfold appended. destruct results; reflexivity.
  - exact Hq.
  - rewrite Hinv. now apply calls_with_fst.
  - rewrite Hinv. now apply calls_with_snd.
Qed.

Lemma agentic_round (config : ApiConfig) (systemPrompt : string)
    (reply : Reply) (rest : list Reply) (st : State)
    (response : Response) (contentBlocks : list ContentBlock) :
  callApi reply = Ok response ->
  decode config response = Ok contentBlocks ->
  agentic config systemPrompt (reply :: rest) st
  = match process_response contentBlocks
            (emit (EvFetch (request_of (messages st) systemPrompt config)) st) with
    | (Ok false, st2) => (LoopBreak, rest, st2)
    | (Ok true, st2) => agentic config systemPrompt rest st2
    | (Throw msg, st2) => (Thrown msg, rest, st2)
    end.
Proof. intros Hcall Hdec. simpl. now rewrite Hcall, Hdec. Qed.

Lemma iteration_prompt (config : ApiConfig) (systemPrompt userInput : string)
    (replies : list Reply) (st : State) :
  is_prompt userInput = true ->
  iteration config systemPrompt userInput replies st
  = match agentic config systemPrompt replies
            (push {| role := user; content := Text userInput |}
                  (emit (EvLog Separator) (emit (EvLog Separator) st))) with
    | (LoopBreak, rest, st') => (Continue, rest, emit (EvLog BlankLine) st')
    | (Thrown msg, rest, st') =>
        if Js.includes msg "SIGINT" then (Break, rest, st')
        else (Continue, rest, emit (EvLog (ErrorLine msg)) st')
    | (AwaitingReply, rest, st') => (Blocked, rest, st')
    end.
Proof.
  unfold is_prompt, iteration. intros H.
  destruct (String.eqb userInput ""); [discriminate|].
  destruct (String.eqb userInput "/q"); [discriminate|].
  destruct (String.eqb userInput "exit"); [discriminate|].
  destruct (String.eqb userInput "/c"); [discriminate|].
  reflexivity.
Qed.

(** X27. When the first request of a user turn is answered with a failure
    status and the error message does not contain [SIGINT], the error,
    with the status and the body, is shown; the pass ends back at the
    prompt; the history has grown by the user's message only; one request
    was sent and no further reply was consumed. *)
Theorem http_error_reported (config : ApiConfig) (systemPrompt userInput : string)
    (status : Z) (body : string) (rest : list Reply) (st : State) :
  is_prompt userInput = true ->
  Js.includes ("API error: " ++ Js.string_of_Z status ++ " - " ++ body) "SIGINT" = false ->
  let asked := {| role := user; content := Text userInput |} in
  iteration config systemPrompt userInput (HttpError status body :: rest) st
  = (Continue, rest,
     {| messages := messages st ++ [asked];
        world := world st;
        trace := trace st
                 ++ [ EvLog Separator; EvLog Separator; EvPush asked;
                      EvFetch (request_of (messages st ++ [asked]) systemPrompt config);
                      EvLog (ErrorLine ("API error: " ++ Js.string_of_Z status
                                        ++ " - " ++ body)) ] |}).
Proof.
  intros Hprompt Hsig asked. rewrite iteration_prompt by exact Hprompt.
  cbn [agentic callApi]. rewrite Hsig.
  unfold emit, push. cbn [messages world trace]. rewrite <- !app_assoc. reflexivity.
Qed.

(** C9. When the first response of a user turn decodes to blocks none of
    which is a [tool_use], the pass sends exactly one request and ends back
    at the prompt, leaving the later replies unread; the history has grown
    by the user message and the assistant message, and by nothing else. *)
Theorem one_request_without_tool_use (config : ApiConfig) (systemPrompt userInput : string)
    (response : Response) (contentBlocks : list ContentBlock)
    (rest : list Reply) (st : State) :
  is_prompt userInput = true ->
  decode config response = Ok contentBlocks ->
  List.filter is_tool_use contentBlocks = [] ->
  exists evs,
    iteration config systemPrompt userInput (HttpOk response :: rest) st
    = (Continue, rest,
       {| messages := messages st
                      ++ [ {| role := user; content := Text userInput |};
                           {| role := assistant; content := Blocks contentBlocks |} ];
          world := world st;
          trace := trace st ++ evs |})
    /\ List.length (fetches evs) = 1.
Proof.
  intros Hprompt Hdec Hnone. rewrite iteration_prompt by exact Hprompt.
  rewrite (agentic_round _ _ _ _ _ response contentBlocks) by (reflexivity || exact Hdec).
  match goal with |- context [process_response _ ?s] =>
    destruct (process_response_spec contentBlocks s (no_tool_use_prints _ Hnone))
      as (evs & Hp & _ & Hq) end.
  cbn zeta in Hp. rewrite Hp, Hnone. clear Hp.
  cbn [List.map run_tools results_for List.combine fst snd appended].
  exists ([ EvLog Separator; EvLog Separator;
            EvPush {| role := user; content := Text userInput |};
            EvFetch (request_of (messages st ++ [ {| role := user; content := Text userInput |} ])
                                systemPrompt config) ]
          ++ evs
          ++ [ EvPush {| role := assistant; content := Blocks contentBlocks |};
               EvLog BlankLine ]).
  split.
  - unfold emit, push. cbn [messages world trace]. rewrite <- !app_assoc. cbn [app]. reflexivity.
  - rewrite !fetches_app, (quiet_fetches evs Hq). reflexivity.
Qed.

(** *** The history *)

Lemma step_history (st st' : State) :
  step st st' ->
  messages st' = messages st
  \/ (exists msg, (role msg = user \/ role msg = assistant)
                  /\ messages st' = messages st ++ [msg])
  \/ messages st' = [].
Proof.
  destruct 1; simpl; eauto.
Qed.

Lemma steps_roles (st st' : State) :
  rtc step st st' ->
  Forall (fun msg => role msg = user \/ role msg = assistant) (messages st) ->
  Forall (fun msg => role msg = user \/ role msg = assistant) (messages st').
Proof.
  induction 1 as [|a b c Hab _ IH]; [auto|].
  intros Ha. apply IH.
  destruct (step_history a b Hab) as [-> | [(msg & Hrole & ->) | ->]]; auto.
  apply Forall_app_2; auto.
Qed.

Lemma quiet_keeps_history (evs : list Event) :
  forallb quiet evs = true -> forallb keeps_history evs = true.
Proof.
  induction evs as [|e evs IH]; simpl; [reflexivity|].
  intros H. apply andb_prop in H. destruct H as [He Hevs].
  rewrite (IH Hevs). destruct e; try discriminate; reflexivity.
Qed.

Lemma steps_emit_all (evs : list Event) :
  forallb keeps_history evs = true ->
  forall st,
    rtc step st {| messages := messages st; world := world st; trace := trace st ++ evs |}.
Proof.
  induction evs as [|e evs IH]; simpl; intros H st.
  - rewrite app_nil_r. destruct st. apply rtc_refl.
  - apply andb_prop in H. destruct H as [He Hevs].
    eapply rtc_l; [apply (step_emit e st He)|].
    specialize (IH Hevs (emit e st)). unfold emit in *. simpl in IH.
    now rewrite <- app_assoc in IH.
Qed.

Lemma process_response_steps (contentBlocks : list ContentBlock) (st : State) :
  rtc step st (snd (process_response contentBlocks st)).
Proof.
  destruct (forallb header_prints (List.filter is_tool_use contentBlocks)) eqn:Hprints;
    [|destruct (process_response_throw contentBlocks st Hprints)
        as (msg & evs & w' & -> & Hq & _);
      cbn [snd];
      eapply rtc_l; [apply (step_world w' st)|];
      exact (steps_emit_all evs (quiet_keeps_history evs Hq) (set_world w' st))].
  destruct (process_response_spec contentBlocks st Hprints) as (evs & Hp & _ & Hq).
  cbn zeta in Hp. rewrite Hp. cbn [snd].
  set (ran := run_tools _ (world st)).
  set (results := results_for _ _).
  eapply rtc_l; [apply (step_world (snd ran) st)|].
  etrans; [apply (steps_emit_all evs (quiet_keeps_history evs Hq))|].
  unfold set_world. cbn [messages world trace].
  eapply rtc_l;
    [apply (step_push {| role := assistant; content := Blocks contentBlocks |}); now right|].
  unfold push, appended. cbn [messages world trace].
  destruct results as [|r rs]; cbn [List.map].
  - rewrite <- !app_assoc. apply rtc_refl.
  - eapply rtc_l;
      [apply (step_push {| role := user; content := Blocks (r :: rs) |}); now left|].
    unfold push. cbn [messages world trace]. rewrite <- !app_assoc. apply rtc_refl.
Qed.

Lemma agentic_steps (config : ApiConfig) (systemPrompt : string) (replies : list Reply) :
  forall st, rtc step st (snd (agentic config systemPrompt replies st)).
Proof.
  induction replies as [|reply rest IH]; intros st; simpl.
  - apply rtc_once. now apply step_emit.
  - eapply rtc_l; [apply (step_emit (EvFetch (request_of (messages st) systemPrompt config)) st);
                   reflexivity|].
    destruct (callApi reply) as [response|msg]; [|apply rtc_refl].
    destruct (decode config response) as [contentBlocks|msg]; [|apply rtc_refl].
    pose proof (process_response_steps contentBlocks
                  (emit (EvFetch (request_of (messages st) systemPrompt config)) st)) as Hp.
    destruct (process_response contentBlocks _) as [[[|]|msg] st2]; cbn [snd] in *.
    + etrans; [exact Hp|apply IH].
    + exact Hp.
    + exact Hp.
Qed.

Lemma iteration_steps (config : ApiConfig) (systemPrompt userInput : string)
    (replies : list Reply) (st : State) :
  rtc step st (snd (iteration config systemPrompt userInput replies st)).
Proof.
  assert (Hsep : rtc step st (emit (EvLog Separator) (emit (EvLog Separator) st))).
  { eapply rtc_l; [apply (step_emit (EvLog Separator) st); reflexivity|].
    apply rtc_once. now apply step_emit. }
  unfold iteration.
  destruct (String.eqb userInput ""); [exact Hsep|].
  destruct (String.eqb userInput "/q" || String.eqb userInput "exit"); [exact Hsep|].
  destruct (String.eqb userInput "/c").
  - cbn [snd]. etrans; [exact Hsep|].
    eapply rtc_l; [apply step_clear|]. apply rtc_once. now apply step_emit.
  - etrans; [exact Hsep|].
    eapply rtc_l; [apply (step_push {| role := user; content := Text userInput |}); now left|].
    match goal with |- context [agentic config systemPrompt replies ?s] =>
      pose proof (agentic_steps config systemPrompt replies s) as Ha;
      destruct (agentic config systemPrompt replies s) as [[[| msg |] rest] st'] end;
      cbn [snd] in *.
    + etrans; [exact Ha|]. apply rtc_once. now apply step_emit.
    + destruct (Js.includes msg "SIGINT"); cbn [snd]; [exact Ha|].
      etrans; [exact Ha|]. apply rtc_once. now apply step_emit.
    + exact Ha.
Qed.

Lemma main_loop_steps (config : ApiConfig) (systemPrompt : string) (inputs : list string) :
  forall replies st, rtc step st (snd (main_loop config systemPrompt inputs replies st)).
Proof.
  induction inputs as [|userInput more IH]; intros replies st; simpl.
  - apply rtc_once. now apply step_emit.
  - pose proof (iteration_steps config systemPrompt userInput replies st) as Hi.
    destruct (iteration config systemPrompt userInput replies st) as [[[| |] rest] st'];
      cbn [snd] in *; [|exact Hi|exact Hi].
    etrans; [exact Hi|apply IH].
Qed.

(** C7. Whatever the user types and the transport answers, the state in
    which [main] is left was reached from the initial one, whose history
    is empty, through steps each of which leaves the history alone,
    appends one user or assistant message to it, or empties it; and every
    message of its history has the role user or assistant. *)
Theorem history_append_only (config : ApiConfig) (cwd : string)
    (inputs : list string) (replies : list Reply) (w : World) :
  rtc step (initial w) (snd (main config cwd inputs replies w))
  /\ Forall (fun msg => role msg = user \/ role msg = assistant)
            (messages (snd (main config cwd inputs replies w)))
  /\ (forall st st',
        step st st' ->
        messages st' = messages st
        \/ (exists msg, (role msg = user \/ role msg = assistant)
                        /\ messages st' = messages st ++ [msg])
        \/ messages st' = []).
Proof.
  assert (H : rtc step (initial w) (snd (main config cwd inputs replies w))).
  { unfold main. apply main_loop_steps. }
  split; [exact H|]. split; [|exact step_history].
  apply (steps_roles _ _ H). constructor.
Qed.

End LoopFacts.

(** * Further properties *)

(** ** Splitting, joining, counting and replacing *)

Lemma append_nil_l (s : string) : ("" ++ s)%string = s.
Proof. reflexivity. Qed.

Lemma append_cons (c : ascii) (a b : string) :
  (String c a ++ b)%string = String c (a ++ b).
Proof. reflexivity. Qed.

(** [simpl] that also computes appends on what is known of their left
    operand. *)
Ltac ssimpl := simpl; rewrite ?append_cons, ?append_nil_l.
Tactic Notation "ssimpl" "in" hyp(H) := simpl in H; rewrite ?append_cons, ?append_nil_l in H.

Lemma append_empty_r (s : string) : (s ++ "")%string = s.
Proof. induction s as [|c s IH]; ssimpl; [reflexivity|]. now rewrite IH. Qed.

Lemma append_assoc (a b c : string) : ((a ++ b) ++ c)%string = (a ++ b ++ c)%string.
Proof. induction a as [|x a IH]; ssimpl; [reflexivity|]. now rewrite IH. Qed.

Lemma length_append (a b : string) :
  String.length (a ++ b) = String.length a + String.length b.
Proof. induction a as [|x a IH]; ssimpl; [reflexivity|]. simpl. now rewrite IH. Qed.

Lemma startsWith_decompose (p s : string) :
  Js.startsWith s p = true -> s = (p ++ Js.drop (String.length p) s)%string.
Proof.
  revert s. induction p as [|a p IH]; intros s H; simpl in *.
  - now destruct s.
  - destruct s as [|b s]; [discriminate|].
    apply andb_prop in H. destruct H as [Hab Hrest].
    apply Ascii.eqb_eq in Hab. subst b. ssimpl. now rewrite <- (IH s Hrest).
Qed.

Lemma startsWith_length (p s : string) :
  Js.startsWith s p = true -> String.length p <= String.length s.
Proof.
  intros H. pose proof (startsWith_decompose p s H) as E.
  apply (f_equal String.length) in E. rewrite length_append in E. lia.
Qed.

Lemma split_go_nonempty (sep s : string) :
  forall skip cur, Js.split_go sep s skip cur <> [].
Proof.
  induction s as [|c s IH]; intros skip cur; simpl; [discriminate|].
  destruct skip; [|apply IH].
  destruct (Js.startsWith (String c s) sep); [discriminate|apply IH].
Qed.

Lemma join_cons (x : string) (rest : list string) (sep : string) :
  rest <> [] -> Js.join (x :: rest) sep = (x ++ sep ++ Js.join rest sep)%string.
Proof. destruct rest; [contradiction|reflexivity]. Qed.

(** Joining the pieces of a split with the separator gives the text back;
    [skip] characters of the text belong to a separator already joined. *)
Lemma join_split_go (sep s : string) :
  sep <> "" ->
  forall skip cur,
    skip <= String.length s ->
    Js.join (Js.split_go sep s skip cur) sep = (cur ++ Js.drop skip s)%string.
Proof.
  intros Hsep. induction s as [|c s IH]; intros skip cur Hskip; simpl in *.
  - assert (skip = 0) by lia. subst. simpl. now rewrite append_empty_r.
  - destruct skip as [|k].
    + destruct (Js.startsWith (String c s) sep) eqn:Hstart.
      * rewrite join_cons by apply split_go_nonempty.
        destruct sep as [|a sep]; simpl in *.
        -- contradiction.
        -- apply andb_prop in Hstart. destruct Hstart as [Hac Hrest].
           apply Ascii.eqb_eq in Hac. subst a.
           rewrite Nat.sub_0_r.
           rewrite IH by now apply startsWith_length.
           rewrite append_nil_l, append_cons.
           now rewrite <- (startsWith_decompose sep s Hrest).
      * rewrite IH by lia. simpl. rewrite append_assoc. reflexivity.
    + simpl. apply IH. lia.
Qed.

Lemma join_chars (s : string) : Js.join (Js.chars s) "" = s.
Proof.
  induction s as [|c s IH]; [reflexivity|].
  simpl. destruct (Js.chars s) eqn:E.
  - destruct s; [reflexivity|discriminate].
  - simpl in IH |- *. now rewrite IH.
Qed.

Lemma join_split (s sep : string) : Js.join (Js.split s sep) sep = s.
Proof.
  destruct sep as [|a sep]; [apply join_chars|].
  unfold Js.split. rewrite join_split_go; [reflexivity|discriminate|lia].
Qed.

(** A split has one piece more than the pattern has matches. *)
Lemma length_split_go (sep s : string) :
  forall skip cur,
    List.length (Js.split_go sep s skip cur) = S (Js.count_go sep s skip).
Proof.
  induction s as [|c s IH]; intros skip cur; simpl; [reflexivity|].
  destruct skip; [|apply IH].
  destruct (Js.startsWith (String c s) sep); simpl; now rewrite IH.
Qed.

Lemma count_zero_iff (p s : string) :
  p <> "" -> (Js.count_go p s 0 = 0 <-> Js.indexOf s p = None).
Proof.
  intros Hp. induction s as [|c s IH]; simpl.
  - destruct p; [contradiction|]. simpl. tauto.
  - destruct (Js.startsWith (String c s) p) eqn:Hstart.
    + split; discriminate.
    + rewrite IH. destruct (Js.indexOf s p); simpl; split; congruence.
Qed.

Lemma split_go_skip (sep s : string) :
  forall skip cur,
    skip <= String.length s ->
    Js.split_go sep s skip cur = Js.split_go sep (Js.drop skip s) 0 cur.
Proof.
  induction s as [|c s IH]; intros skip cur Hskip; simpl in *.
  - assert (skip = 0) by lia. now subst.
  - destruct skip as [|k]; [reflexivity|]. simpl. apply IH. lia.
Qed.

Lemma count_go_skip (p s : string) :
  forall skip,
    skip <= String.length s ->
    Js.count_go p s skip = Js.count_go p (Js.drop skip s) 0.
Proof.
  induction s as [|c s IH]; intros skip Hskip; simpl in *.
  - assert (skip = 0) by lia. now subst.
  - destruct skip as [|k]; [reflexivity|]. simpl. apply IH. lia.
Qed.

Lemma drop_after_match (p s : string) (c : ascii) :
  Js.startsWith (String c s) p = true -> p <> "" ->
  Js.drop (String.length p - 1) s = Js.drop (String.length p) (String c s)
  /\ String.length p - 1 <= String.length s.
Proof.
  intros Hstart Hp. destruct p as [|a p]; [contradiction|].
  simpl in *. rewrite Nat.sub_0_r.
  apply andb_prop in Hstart. destruct Hstart as [_ Hrest].
  split; [reflexivity|now apply startsWith_length].
Qed.

(** The split of a text at the first occurrence of the pattern. *)
Lemma split_go_first (p s : string) :
  p <> "" ->
  forall i cur,
    Js.indexOf s p = Some i ->
    Js.split_go p s 0 cur
    = (cur ++ Js.take i s)%string :: Js.split_go p (Js.drop (i + String.length p) s) 0 "".
Proof.
  intros Hp. induction s as [|c s IH]; intros i cur Hi; simpl in Hi |- *.
  - destruct p; [contradiction|discriminate].
  - destruct (Js.startsWith (String c s) p) eqn:Hstart.
    + injection Hi as <-.
      destruct (drop_after_match p s c Hstart Hp) as [Hdrop Hlen].
      rewrite split_go_skip by exact Hlen. rewrite Hdrop.
      change (Js.take 0 (String c s)) with "". now rewrite append_empty_r.
    + destruct (Js.indexOf s p) as [j|] eqn:Hj; [|discriminate].
      injection Hi as <-. rewrite (IH j _ eq_refl). simpl.
      now rewrite append_assoc.
Qed.

Lemma count_go_first (p s : string) :
  p <> "" ->
  forall i,
    Js.indexOf s p = Some i ->
    Js.count_go p s 0 = S (Js.count_go p (Js.drop (i + String.length p) s) 0).
Proof.
  intros Hp. induction s as [|c s IH]; intros i Hi; simpl in Hi |- *.
  - destruct p; [contradiction|discriminate].
  - destruct (Js.startsWith (String c s) p) eqn:Hstart.
    + injection Hi as <-.
      destruct (drop_after_match p s c Hstart Hp) as [Hdrop Hlen].
      rewrite count_go_skip by exact Hlen. now rewrite Hdrop.
    + destruct (Js.indexOf s p) as [j|] eqn:Hj; [|discriminate].
      injection Hi as <-. now rewrite (IH j eq_refl).
Qed.

Lemma split_go_none (p s : string) :
  forall cur,
    Js.indexOf s p = None ->
    Js.split_go p s 0 cur = [(cur ++ s)%string].
Proof.
  induction s as [|c s IH]; intros cur Hnone; simpl in Hnone |- *.
  - now rewrite append_empty_r.
  - destruct (Js.startsWith (String c s) p); [discriminate|].
    destruct (Js.indexOf s p); [discriminate|].
    rewrite IH by reflexivity. now rewrite append_assoc.
Qed.

Lemma includes_char_cons (c d : ascii) (s : string) :
  Js.includes (String c s) (String d "") = false ->
  Ascii.eqb c d = false /\ Js.includes s (String d "") = false.
Proof.
  unfold Js.includes. simpl.
  destruct (Ascii.eqb d c) eqn:E; simpl; [discriminate|].
  rewrite Ascii.eqb_sym, E. destruct (Js.indexOf s (String d "")); simpl; [discriminate|].
  auto.
Qed.

(** A replacement text without a dollar sign stands for itself. *)
Lemma getSubstitution_plain (matched before after repl : string) :
  Js.includes repl "$" = false ->
  Js.getSubstitution matched before after repl = repl.
Proof.
  induction repl as [|c repl IH]; simpl; [reflexivity|].
  intros H. apply includes_char_cons in H. destruct H as [Hc Hrest].
  rewrite Hc. now rewrite (IH Hrest).
Qed.


Lemma match_count_nonempty (text old : string) :
  old <> "" -> Js.match_count text old = Js.count_go old text 0.
Proof. destruct old; [contradiction|reflexivity]. Qed.

Lemma split_nonempty (text old : string) :
  old <> "" -> Js.split text old = Js.split_go old text 0 "".
Proof. destruct old; [contradiction|reflexivity]. Qed.

(** Where the pattern occurs once and the replacement has no dollar sign,
    replacing the first occurrence and replacing every occurrence give
    the same text. *)
Lemma replace_unique (text old new : string) :
  old <> "" ->
  Js.match_count text old = 1 ->
  Js.includes new "$" = false ->
  Js.replace text old new = Js.join (Js.split text old) new.
Proof.
  intros Hold Hcount Hplain.
  rewrite match_count_nonempty in Hcount by exact Hold.
  rewrite split_nonempty by exact Hold. unfold Js.replace.
  destruct (Js.indexOf text old) as [i|] eqn:Hi.
  - rewrite (count_go_first _ _ Hold i Hi) in Hcount.
    injection Hcount as Hrest. apply count_zero_iff in Hrest; [|exact Hold].
    rewrite (split_go_first _ _ Hold i "" Hi), append_nil_l.
    rewrite (split_go_none _ _ "" Hrest), append_nil_l.
    rewrite getSubstitution_plain by exact Hplain. reflexivity.
  - apply count_zero_iff in Hi; [|exact Hold]. rewrite Hi in Hcount. discriminate.
Qed.

(** ** Editing *)

Section EditFacts.
Context {P : Platform}.


(** X2. With [all], replacing a string that occurs in the file by itself
    writes the file back as it was read. *)
Theorem edit_all_by_itself (args : ToolArgs) (w : World) (text old : string) :
  fs_readFileSync (prop args "path") w = Ok text ->
  prop args "old" = Some (JStr old) ->
  prop args "new" = Some (JStr old) ->
  truthy (prop args "all") = true ->
  Js.includes text old = true ->
  editFile args w = written args text w.
Proof.
  intros Hread Hold Hnew Hall Hinc. unfold editFile, written.
  rewrite Hread, Hold, Hnew, Hall. cbn [ToString_opt ToString]. rewrite Hinc. simpl.
  now rewrite join_split.
Qed.

(** X3. Where the old string is not empty and occurs once, and the new string
    has no dollar sign, [all] makes no difference. *)
Theorem edit_all_makes_no_difference
    (args args' : ToolArgs) (w : World) (text old new : string) :
  prop args' "path" = prop args "path" ->
  prop args "old" = Some (JStr old) ->
  prop args' "old" = Some (JStr old) ->
  prop args "new" = Some (JStr new) ->
  prop args' "new" = Some (JStr new) ->
  truthy (prop args "all") = true ->
  truthy (prop args' "all") = false ->
  fs_readFileSync (prop args "path") w = Ok text ->
  old <> "" ->
  Js.match_count text old = 1 ->
  Js.includes new "$" = false ->
  editFile args w = editFile args' w.
Proof.
  intros Hpath Hold Hold' Hnew Hnew' Hall Hall' Hread Hne Hcount Hplain.
  assert (Hinc : Js.includes text old = true).
  { unfold Js.includes. destruct (Js.indexOf text old) eqn:Hi; [reflexivity|].
    rewrite match_count_nonempty in Hcount by exact Hne.
    apply count_zero_iff in Hi; [|exact Hne]. rewrite Hi in Hcount. discriminate. }
  unfold editFile. rewrite Hpath, Hread, Hold, Hold', Hnew, Hnew', Hall, Hall'.
  cbn [ToString_opt ToString]. rewrite Hinc, Hcount. simpl.
  now rewrite (replace_unique text old new Hne Hcount Hplain).
Qed.

End EditFacts.

(** ** Reading *)

Lemma slice_window {A : Type} (l : list A) (o n : Z) :
  (0 <= o)%Z -> (0 <= n)%Z ->
  Js.slice l (Js.Finite o) (Js.Finite (o + n))
  = List.firstn (Z.to_nat n) (List.skipn (Z.to_nat o) l).
Proof.
  intros Ho Hn. unfold Js.slice, Js.relative.
  destruct (Z.ltb_spec o 0) as [|_]; [lia|].
  destruct (Z.ltb_spec (o + n) 0) as [|_]; [lia|].
  rewrite Z2Nat.inj_add by lia.
  set (a := Z.to_nat o). set (b := Z.to_nat n). set (len := List.length l).
  destruct (Nat.le_gt_cases a len) as [Hle|Hgt].
  - rewrite (Nat.min_l a len) by lia.
    destruct (Nat.le_gt_cases (a + b) len) as [Hab|Hab].
    + rewrite Nat.min_l by lia. f_equal. lia.
    + rewrite Nat.min_r by lia.
      rewrite !List.firstn_all2; [reflexivity| |]; rewrite List.length_skipn; fold len; lia.
  - rewrite (List.skipn_all2 (n := a)) by (fold len; lia).
    rewrite (Nat.min_r a len) by lia.
    rewrite (List.skipn_all2 (n := len)) by (unfold len; lia).
    now rewrite !List.firstn_nil.
Qed.

Lemma or_default_offset (o : Z) : or_default (Some (JNum o)) (JNum 0) = JNum o.
Proof.
  unfold or_default. simpl. destruct (Z.eqb_spec o 0) as [->|]; reflexivity.
Qed.

Lemma or_default_falsy (v : option json) (d : json) :
  truthy v = false -> or_default v d = d.
Proof. unfold or_default. destruct v; [|reflexivity]. now intros ->. Qed.

Lemma map_result_ok {A B : Type} (f : A -> result B) (g : A -> B) (l : list A) :
  (forall x, f x = Ok (g x)) -> map_result f l = Ok (List.map g l).
Proof.
  intros H. induction l as [|x l IH]; [reflexivity|].
  cbn [map_result List.map]. fold (map_result f l). now rewrite H, IH.
Qed.

(** The labels of [readFile] when the offset is a number. *)
Lemma labels_numeric (o : Z) (selected : list string) :
  match map_result (numbered_line (JNum o))
          (List.combine (List.seq 0 (List.length selected)) selected) with
  | Throw e => Throw e
  | Ok out => Ok (Js.join out (String "010" EmptyString))
  end
  = Ok (numbered (o + 1) selected).
Proof.
  rewrite (map_result_ok _
             (fun il => (Js.padStart (Js.string_of_Z (o + 1 + Z.of_nat (fst il))) 4
                         ++ "| " ++ snd il)%string)).
  - reflexivity.
  - intros [i line]. unfold numbered_line. cbn [js_add as_number fst snd ToString].
    now replace (o + Z.of_nat i + 1)%Z with (o + 1 + Z.of_nat i)%Z by lia.
Qed.

Section ReadFacts.
Context {P : Platform}.

Lemma readFile_numeric (args : ToolArgs) (w : World) (text : string) (o n : Z) :
  fs_readFileSync (prop args "path") w = Ok text ->
  or_default (prop args "offset") (JNum 0) = JNum o ->
  or_default (prop args "limit")
             (JNum (Z.of_nat (List.length (Js.split text (String "010" EmptyString)))))
  = JNum n ->
  readFile args w
  = (Ok (numbered (o + 1)
           (Js.slice (Js.split text (String "010" EmptyString))
                     (Js.Finite o) (Js.Finite (o + n)))),
     w).
Proof.
  intros Hread Hoff Hlim. unfold readFile. rewrite Hread. cbv zeta. rewrite Hoff, Hlim.
  cbn [js_add as_number to_index].
  pose proof (labels_numeric o (Js.slice (Js.split text (String "010" EmptyString))
                                         (Js.Finite o) (Js.Finite (o + n)))) as Hlabels.
  destruct (map_result _ _) as [out|e]; [|discriminate].
  now injection Hlabels as ->.
Qed.

(** X4. With a numeric offset [o >= 0] and a numeric limit [n > 0], [readFile]
    gives the [n] lines after the first [o], numbered from [o + 1]; it
    gives fewer when the file ends before. *)
Theorem read_window (args : ToolArgs) (w : World) (text : string) (o n : Z) :
  fs_readFileSync (prop args "path") w = Ok text ->
  prop args "offset" = Some (JNum o) ->
  prop args "limit" = Some (JNum n) ->
  (0 <= o)%Z -> (0 < n)%Z ->
  readFile args w
  = (Ok (numbered (o + 1)
           (List.firstn (Z.to_nat n)
              (List.skipn (Z.to_nat o) (Js.split text (String "010" EmptyString))))),
     w).
Proof.
  intros Hread Hoff Hlim Ho Hn.
  rewrite (readFile_numeric args w text o n Hread).
  - now rewrite slice_window by lia.
  - rewrite Hoff. apply or_default_offset.
  - rewrite Hlim. unfold or_default. simpl. destruct (Z.eqb_spec n 0); [lia|reflexivity].
Qed.

(** X5. Without an offset and without a limit, and also when they are 0,
    [null], [false] or the empty string, [readFile] gives every line of
    the file, numbered from 1. *)
Theorem read_whole_file (args : ToolArgs) (w : World) (text : string) :
  fs_readFileSync (prop args "path") w = Ok text ->
  truthy (prop args "offset") = false ->
  truthy (prop args "limit") = false ->
  readFile args w = (Ok (numbered 1 (Js.split text (String "010" EmptyString))), w).
Proof.
  intros Hread Hoff Hlim.
  rewrite (readFile_numeric args w text 0 _ Hread (or_default_falsy _ _ Hoff)
             (or_default_falsy _ _ Hlim)).
  rewrite slice_window by lia.
  rewrite Nat2Z.id. change (Z.to_nat 0) with 0. cbn [List.skipn].
  now rewrite List.firstn_all.
Qed.

End ReadFacts.

(** ** What the tools leave alone, and what they never answer *)

Lemma error_nonempty (msg : string) : ("error: " ++ msg)%string <> "".
Proof. rewrite append_cons. discriminate. Qed.

Section ToolEffects.
Context {P : Platform}.

(** X6. [read], [glob] and [grep] never change the world, whatever their
    arguments and whether they return or throw. *)
Theorem searching_tools_are_read_only (name : string) (args : ToolArgs) (w : World) :
  In name ["read"; "glob"; "grep"] ->
  snd (runTool name args w) = w.
Proof.
  intros [<-|[<-|[<-|[]]]]; unfold runTool, call_tool; simpl.
  - unfold readFile. destruct (fs_readFileSync _ w); [|reflexivity].
    cbv zeta. destruct (js_add _ _); [|reflexivity].
    destruct (to_index _); [|reflexivity].
    destruct (to_index _); [|reflexivity].
    destruct (map_result _ _); reflexivity.
  - unfold globFiles. destruct (path_join _) as [joined|]; [|reflexivity].
    destruct (globSync _ _ w); reflexivity.
  - unfold grepFiles. destruct (RegExp_new _) as [test|]; [|reflexivity].
    destruct (path_join _) as [joined|]; [|reflexivity].
    destruct (globSync _ _ w); reflexivity.
Qed.

(** X7. Only [read] can answer with the empty string: for every other name,
    registered or not, the string [runTool] hands back is not empty. *)
Theorem only_read_answers_empty (name : string) (args : ToolArgs) (w : World) :
  name <> "read" ->
  fst (runTool name args w) <> "".
Proof.
  intros Hname. unfold runTool.
  destruct (call_tool name args w) as [[s|msg] w'] eqn:Hcall; cbn [fst];
    [|apply error_nonempty].
  unfold call_tool in Hcall.
  destruct (assoc name TOOLS) as [def|] eqn:Hdef.
  - unfold TOOLS in Hdef. simpl in Hdef.
    destruct (String.eqb_spec name "read") as [|_]; [contradiction|].
    repeat (match type of Hdef with
            | (if String.eqb name ?k then _ else _) = _ =>
                destruct (String.eqb name k)
            end);
      try discriminate; injection Hdef as <-; simpl in Hcall.
    + unfold writeFile in Hcall.
      destruct (fs_writeFileSync _ _ w) as [[[]|e] w1]; inversion Hcall; discriminate.
    + unfold editFile in Hcall.
      destruct (fs_readFileSync _ w) as [text|e]; [|discriminate].
      destruct (ToString_opt (prop args "old")) as [searched|e]; [|discriminate].
      destruct (negb _); [inversion Hcall; discriminate|].
      destruct (prop args "old") as [[| | |old| |]|]; try discriminate.
      destruct (_ && _).
      * inversion Hcall. rewrite append_cons. discriminate.
      * match type of Hcall with
        | match ?r with _ => _ end = _ => destruct r; [|discriminate]
        end.
        destruct (fs_writeFileSync _ _ w) as [[[]|e] w1]; inversion Hcall; discriminate.
    + unfold globFiles in Hcall. destruct (path_join _) as [joined|]; [|discriminate].
      destruct (globSync _ _ w); discriminate.
    + unfold grepFiles in Hcall. destruct (RegExp_new _) as [test|]; [|discriminate].
      destruct (path_join _) as [joined|]; [|discriminate].
      destruct (globSync _ _ w); discriminate.
    + unfold runBash in Hcall.
      destruct (child_process_exec _ w) as [[run|e] w1]; [|discriminate].
      destruct (exec_error run).
      * inversion Hcall. apply error_nonempty.
      * inversion Hcall.
        destruct (String.eqb_spec (String_trim (List.fold_left collect (exec_chunks run) ""))
                                  ""); [discriminate|assumption].
  - destruct (existsb _ _); discriminate.
Qed.

End ToolEffects.

(** ** Searching *)

Section SearchFacts.
Context {P : Platform}.

(** X8. [grepFiles] never searches.  Whatever the arguments and the
    files, the call throws, the files are as they were, and [runTool]
    answers with an error; when the pattern compiles, the path is joined
    and the glob is started, the error is that the promise it gave is not
    iterable. *)
Theorem grep_never_searches (args : ToolArgs) (w : World) :
  exists msg,
    grepFiles args w = (Throw msg, w)
    /\ runTool "grep" args w = (("error: " ++ msg)%string, w)
    /\ (forall pattern joined files,
          RegExp_new (prop args "pat") = Ok pattern ->
          path_join [Some (or_default (prop args "path") (JStr ".")); Some (JStr "**/*")]
          = Ok joined ->
          globSync joined true w = Ok files ->
          msg = "files is not iterable").
Proof.
  unfold runTool, call_tool. cbn [assoc TOOLS String.eqb Ascii.eqb Bool.eqb fn].
  unfold grepFiles.
  destruct (RegExp_new (prop args "pat")) as [pattern|e];
    [|exists e; repeat split; discriminate].
  destruct (path_join _) as [joined|e]; [|exists e; repeat split; discriminate].
  destruct (globSync joined true w) as [files|e] eqn:Hglob.
  - exists "files is not iterable". repeat split.
  - exists e. repeat split. intros _ joined' files _ Hjoined Hfiles.
    injection Hjoined as <-. rewrite Hglob in Hfiles. discriminate.
Qed.

(** X9. [globFiles] never lists a file.  Whatever the arguments and the
    files, the call throws, the files are as they were, and [runTool]
    answers with an error; when the path is joined and the glob is
    started, the error is that the promise it gave has no [sort]. *)
Theorem glob_never_lists (args : ToolArgs) (w : World) :
  exists msg,
    globFiles args w = (Throw msg, w)
    /\ runTool "glob" args w = (("error: " ++ msg)%string, w)
    /\ (forall joined files,
          path_join [Some (or_default (prop args "path") (JStr ".")); prop args "pat"]
          = Ok joined ->
          globSync (Js.replace joined "//" "/") false w = Ok files ->
          msg = "files.sort is not a function").
Proof.
  unfold runTool, call_tool. cbn [assoc TOOLS String.eqb Ascii.eqb Bool.eqb fn].
  unfold globFiles.
  destruct (path_join _) as [joined|e]; [|exists e; repeat split; discriminate].
  destruct (globSync _ false w) as [files|e] eqn:Hglob.
  - exists "files.sort is not a function". repeat split.
  - exists e. repeat split. intros joined' files Hjoined Hfiles.
    injection Hjoined as <-. rewrite Hglob in Hfiles. discriminate.
Qed.

End SearchFacts.

(** ** Schemas of arbitrary tool definitions *)

Lemma includes_char_nil (d : ascii) : Js.includes "" (String d "") = false.
Proof. reflexivity. Qed.

Lemma replace_absent (s p repl : string) :
  Js.includes s p = false -> Js.replace s p repl = s.
Proof.
  unfold Js.includes, Js.replace. now destruct (Js.indexOf s p).
Qed.

Lemma indexOf_marker (base : string) (d : ascii) :
  Js.includes base (String d "") = false ->
  Js.indexOf (base ++ String d "") (String d "") = Some (String.length base).
Proof.
  induction base as [|c base IH]; intros H.
  - rewrite append_nil_l. simpl. now rewrite Ascii.eqb_refl.
  - apply includes_char_cons in H. destruct H as [Hc Hrest].
    rewrite append_cons. simpl. rewrite Ascii.eqb_sym, Hc. simpl.
    now rewrite (IH Hrest).
Qed.

Lemma take_append (a b : string) : Js.take (String.length a) (a ++ b) = a.
Proof.
  induction a as [|c a IH]; [now destruct b|].
  rewrite append_cons. simpl. now rewrite IH.
Qed.

Lemma drop_append (a b : string) : Js.drop (String.length a) (a ++ b) = b.
Proof.
  induction a as [|c a IH]; [now destruct b|].
  rewrite append_cons. simpl. exact IH.
Qed.

Lemma replace_marker (base : string) :
  Js.includes base "?" = false -> Js.replace (base ++ "?") "?" "" = base.
Proof.
  intros H. unfold Js.replace. rewrite (indexOf_marker base "?" H).
  rewrite take_append. simpl.
  replace (String.length base + 1) with (String.length (base ++ "?"))
    by (rewrite length_append; reflexivity).
  rewrite <- (append_empty_r (base ++ "?")) at 2.
  rewrite drop_append. rewrite append_nil_l. apply append_empty_r.
Qed.

Lemma endsWith_marker (base : string) : Js.endsWith (base ++ "?") "?" = true.
Proof.
  induction base as [|c base IH]; [reflexivity|].
  rewrite append_cons. simpl. rewrite IH. apply orb_true_r.
Qed.

Lemma endsWith_without_marker (base : string) :
  Js.includes base "?" = false -> Js.endsWith base "?" = false.
Proof.
  induction base as [|c base IH]; intros H; [reflexivity|].
  apply includes_char_cons in H. destruct H as [Hc Hrest].
  simpl. rewrite (IH Hrest), orb_false_r.
  destruct base; simpl; now rewrite Hc.
Qed.

Lemma assoc_map_unique {A B : Type} (f : A -> B) (l : list (string * A)) (k : string) (v : A) :
  List.NoDup (List.map fst l) ->
  In (k, v) l ->
  assoc k (List.map (fun pt => (fst pt, f (snd pt))) l) = Some (f v).
Proof.
  induction l as [|[k' v'] l IH]; intros Hnd Hin; [contradiction|].
  apply List.NoDup_cons_iff in Hnd. destruct Hnd as [Hfresh Hnd]. simpl in *.
  destruct Hin as [Heq|Hin].
  - injection Heq as -> ->. now rewrite String.eqb_refl.
  - destruct (String.eqb_spec k k') as [->|_]; [|now apply IH].
    exfalso. apply Hfresh. apply (in_map fst) in Hin. exact Hin.
Qed.

Lemma in_filtered_names {A : Type} (g : string * A -> bool) (l : list (string * A))
    (k : string) (v : A) :
  List.NoDup (List.map fst l) ->
  In (k, v) l ->
  (In k (List.map fst (List.filter g l)) <-> g (k, v) = true).
Proof.
  intros Hnd Hin. split.
  - intros Hk. apply in_map_iff in Hk. destruct Hk as ([k' v'] & Hfst & Hf).
    simpl in Hfst. subst k'. apply filter_In in Hf. destruct Hf as [Hin' Hg].
    assert (v' = v) as ->; [|exact Hg].
    clear Hg. induction l as [|[k0 v0] l IH]; [contradiction|].
    apply List.NoDup_cons_iff in Hnd. destruct Hnd as [Hfresh Hnd]. simpl in *.
    destruct Hin as [Heq|Hin], Hin' as [Heq'|Hin'].
    + congruence.
    + injection Heq as -> ->. exfalso. apply Hfresh.
      apply (in_map fst) in Hin'. exact Hin'.
    + injection Heq' as -> ->. exfalso. apply Hfresh.
      apply (in_map fst) in Hin. exact Hin.
    + now apply IH.
  - intros Hg. apply in_map_iff. exists (k, v). split; [reflexivity|].
    apply filter_In. now split.
Qed.

Section SchemaGeneral.
Context {P : Platform}.

(** X10. Whatever the tool definition, for a parameter declared once with the
    type [base] or [base?], where [base] has no question mark: the
    parameter is required exactly when the marker is absent, and its
    schema type is [base], or [integer] when [base] is [number]. *)
Theorem marker_decides_required
    (name : string) (def : ToolDefinition) (paramName paramType base : string) :
  List.NoDup (List.map fst (params def)) ->
  In (paramName, paramType) (params def) ->
  Js.includes base "?" = false ->
  paramType = base \/ paramType = (base ++ "?")%string ->
  (In paramName (required (input_schema (tool_schema (name, def)))) <-> paramType = base)
  /\ assoc paramName (properties (input_schema (tool_schema (name, def))))
     = Some (if String.eqb base "number" then "integer" else base).
Proof.
  intros Hnd Hin Hbase Htype. rewrite tool_schema_spec. simpl.
  rewrite (in_filtered_names _ _ paramName paramType Hnd Hin).
  rewrite (assoc_map_unique emitted_type _ paramName paramType Hnd Hin).
  unfold emitted_type. simpl.
  assert (Hne : (base ++ "?")%string <> base).
  { intros E. apply (f_equal String.length) in E. rewrite length_append in E. simpl in E. lia. }
  destruct Htype as [->| ->].
  - rewrite (endsWith_without_marker base Hbase), (replace_absent base "?" "" Hbase).
    split; [tauto|reflexivity].
  - rewrite endsWith_marker, (replace_marker base Hbase).
    split; [|reflexivity]. split; [discriminate|]. intros E. now apply Hne in E.
Qed.

(** X11. Every request, for whichever provider and history, advertises the
    registered tools, in the order of the registry, with the same names,
    descriptions and parameter schemas. *)
Theorem every_request_advertises_the_registry
    (messages : list Message) (systemPrompt : string) (config : ApiConfig) :
  advertised (req_body (request_of messages systemPrompt config))
  = List.map (fun entry => (fst entry, description (snd entry),
                            input_schema (tool_schema entry))) TOOLS.
Proof.
  assert (H : List.map (fun t => (schema_name t, schema_description t, input_schema t))
                       makeSchema
              = List.map (fun entry => (fst entry, description (snd entry),
                                        input_schema (tool_schema entry))) TOOLS).
  { unfold makeSchema. rewrite List.map_map. apply List.map_ext. intros [name def].
    now rewrite tool_schema_spec. }
  unfold request_of. destruct (provider config); simpl; exact H.
Qed.

End SchemaGeneral.

(** ** Configuration *)

(** X12. A non-empty [MODEL] names the model, whichever provider the keys
    select. *)
Theorem model_override (env : string -> option string) (m : string) :
  env "MODEL" = Some m -> m <> "" ->
  model (getApiConfig env) = m.
Proof.
  intros Hm Hne. unfold getApiConfig. rewrite Hm.
  assert (str_or (Some m) "anthropic/claude-opus-4.5" = m
          /\ str_or (Some m) "llama-3.3-70b-versatile" = m
          /\ str_or (Some m) "claude-opus-4-5" = m) as (H1 & H2 & H3).
  { unfold str_or. destruct (String.eqb_spec m ""); [contradiction|auto]. }
  destruct (negb _); [exact H1|]. destruct (negb _); [exact H2|exact H3].
Qed.

(** X13. The keys are tried in the order OpenRouter, Groq, Anthropic, a key
    set to the empty string counting as absent; the endpoint and the key
    of the configuration are those of the provider chosen, and without
    any key the provider is Anthropic with an empty key. *)
Theorem provider_precedence (env : string -> option string) :
  (is_set env "OPENROUTER_API_KEY" = true ->
     provider (getApiConfig env) = openrouter
     /\ url (getApiConfig env) = "https://openrouter.ai/api/v1/messages"
     /\ env "OPENROUTER_API_KEY" = Some (key (getApiConfig env)))
  /\ (is_set env "OPENROUTER_API_KEY" = false -> is_set env "GROQ_API_KEY" = true ->
        provider (getApiConfig env) = groq
        /\ url (getApiConfig env) = "https://api.groq.com/openai/v1/chat/completions"
        /\ env "GROQ_API_KEY" = Some (key (getApiConfig env)))
  /\ (is_set env "OPENROUTER_API_KEY" = false -> is_set env "GROQ_API_KEY" = false ->
        provider (getApiConfig env) = anthropic
        /\ url (getApiConfig env) = "https://api.anthropic.com/v1/messages"
        /\ key (getApiConfig env) = str_or (env "ANTHROPIC_API_KEY") "").
Proof.
  assert (Hkey : forall k, is_set env k = true -> env k = Some (str_or (env k) "")).
  { intros k. unfold is_set, str_or. destruct (env k) as [v|]; [|discriminate].
    destruct (String.eqb_spec v ""); [discriminate|reflexivity]. }
  unfold getApiConfig. unfold is_set in *.
  split; [|split].
  - intros H. rewrite H. simpl. repeat split. now apply Hkey.
  - intros H1 H2. rewrite H1, H2. simpl. repeat split. now apply Hkey.
  - intros H1 H2. rewrite H1, H2. simpl. repeat split.
Qed.

(** ** The chat-with-tool-calls wire *)

Section WireFacts.
Context {P : Platform}.

(** X14. The chat messages of a request are the system prompt followed by one
    message for each history message that does not have the role system,
    in the order of the history: tool results travel with the role
    [tool], every other message with its own role. *)
Theorem chat_roles_follow_history (messages : list Message) (systemPrompt : string) :
  List.map chat_role (openAiMessages messages systemPrompt)
  = "system" :: List.map chat_role_of (List.filter (fun m => negb (is_system m)) messages)
  /\ List.hd_error (openAiMessages messages systemPrompt)
     = Some {| chat_role := "system"; chat_content := Some systemPrompt;
               tool_call_id := None; tool_calls := None |}.
Proof.
  split; [|reflexivity].
  unfold openAiMessages. simpl. f_equal.
  induction messages as [|[r c] messages IH]; [reflexivity|].
  simpl. rewrite List.map_app, IH.
  unfold encode_message, is_system, chat_role_of. simpl.
  destruct r, c; reflexivity.
Qed.



Lemma decode_tool_calls_parsed (good : list ToolCall) :
  Forall parses good ->
  forall rest acc,
    exists acc', decode_tool_calls (good ++ rest) acc = decode_tool_calls rest acc'.
Proof.
  induction 1 as [|call good [input Hcall] _ IH]; intros rest acc; simpl.
  - now exists acc.
  - rewrite Hcall. apply IH.
Qed.

(** X16. Decoding is all or nothing: when the arguments of one tool call of
    the message do not parse, and those of the calls before it do, the
    decoding throws the error of that call, whatever the text of the
    message and the calls after it. *)
Theorem decode_fails_on_unparseable_arguments
    (config : ApiConfig) (response : Response) (choices : list Choice) (m : ChatMessage)
    (good rest : list ToolCall) (bad : ToolCall) (msg : string) :
  provider config = groq ->
  resp_choices response = Some ({| message := Some m |} :: choices) ->
  tool_calls m = Some (good ++ bad :: rest) ->
  Forall parses good ->
  JSON_parse (match fc_arguments (tc_function bad) with
              | Some s => s
              | None => "undefined"
              end) = Throw msg ->
  decode config response = Throw msg.
Proof.
  intros Hgroq Hchoices Hcalls Hgood Hbad. unfold decode.
  rewrite Hgroq, Hchoices. simpl. rewrite Hcalls.
  match goal with |- decode_tool_calls _ ?acc = _ =>
    destruct (decode_tool_calls_parsed good Hgood (bad :: rest) acc) as [acc' ->] end.
  simpl. now rewrite Hbad.
Qed.

End WireFacts.

(** ** The loop *)

Lemma fetches_pushes (msgs : list Message) : fetches (List.map EvPush msgs) = [].
Proof. induction msgs as [|m msgs IH]; [reflexivity|exact IH]. Qed.

Lemma invocations_pushes (msgs : list Message) : invocations (List.map EvPush msgs) = [].
Proof. induction msgs as [|m msgs IH]; [reflexivity|exact IH]. Qed.

Section TurnFacts.
Context {P : Platform}.

Lemma iteration_command (config : ApiConfig) (systemPrompt userInput : string)
    (replies : list Reply) (st : State) :
  is_prompt userInput = false ->
  exists control evs,
    iteration config systemPrompt userInput replies st
    = (control, replies,
       {| messages := if String.eqb userInput "/c" then [] else messages st;
          world := world st;
          trace := trace st ++ evs |})
    /\ fetches evs = []
    /\ invocations evs = []
    /\ (control = Break <-> userInput = "/q" \/ userInput = "exit").
Proof.
  unfold is_prompt, iteration. intros H.
  destruct (String.eqb_spec userInput "") as [->|Hempty].
  - exists Continue, [EvLog Separator; EvLog Separator]. simpl.
    unfold emit. simpl. rewrite <- app_assoc. repeat split; try discriminate.
    intros [|]; discriminate.
  - destruct (String.eqb_spec userInput "/q") as [->|Hq].
    + exists Break, [EvLog Separator; EvLog Separator]. simpl.
      unfold emit. simpl. rewrite <- app_assoc. repeat split; auto.
    + destruct (String.eqb_spec userInput "exit") as [->|He].
      * exists Break, [EvLog Separator; EvLog Separator]. simpl.
        unfold emit. simpl. rewrite <- app_assoc. repeat split; auto.
      * destruct (String.eqb_spec userInput "/c") as [->|Hc]; [|discriminate].
        exists Continue, [EvLog Separator; EvLog Separator; EvClear; EvLog Cleared]. simpl.
        unfold emit, clear. simpl. rewrite <- !app_assoc. repeat split; try discriminate.
        intros [|]; discriminate.
Qed.

(** X17. An empty line and the commands [/q], [exit] and [/c] stay inside the
    program: no request is sent, no reply is consumed, no tool is run and
    the world is left alone; the history is untouched, except that [/c]
    empties it; and the loop is left exactly on [/q] and [exit]. *)
Theorem commands_send_nothing (config : ApiConfig) (systemPrompt userInput : string)
    (replies : list Reply) (st : State) :
  is_prompt userInput = false ->
  exists control evs,
    iteration config systemPrompt userInput replies st
    = (control, replies,
       {| messages := if String.eqb userInput "/c" then [] else messages st;
          world := world st;
          trace := trace st ++ evs |})
    /\ fetches evs = []
    /\ invocations evs = []
    /\ (control = Break <-> userInput = "/q" \/ userInput = "exit").
Proof. exact (iteration_command config systemPrompt userInput replies st). Qed.

(** X18. In the agentic loop every reply answers one request and every request
    but a last, unanswered one has its reply: the replies used are the
    first of the script, as many as requests were sent, less one when the
    loop is left waiting. *)
Theorem requests_match_replies (config : ApiConfig) (systemPrompt : string)
    (replies : list Reply) :
  forall st,
  exists consumed evs,
    replies = consumed ++ snd (fst (agentic config systemPrompt replies st))
    /\ trace (snd (agentic config systemPrompt replies st)) = trace st ++ evs
    /\ List.length (fetches evs)
       = List.length consumed
         + match fst (fst (agentic config systemPrompt replies st)) with
           | AwaitingReply => 1
           | _ => 0
           end.
Proof.
  induction replies as [|reply rest IH]; intros st; simpl.
  - exists [], [EvFetch (request_of (messages st) systemPrompt config)]. auto.
  - destruct (callApi reply) as [response|msg].
    + destruct (decode config response) as [contentBlocks|msg].
      * destruct (forallb header_prints (List.filter is_tool_use contentBlocks)) eqn:Hprints;
          [|destruct (process_response_throw contentBlocks
                        (emit (EvFetch (request_of (messages st) systemPrompt config)) st)
                        Hprints) as (msg & evs & w' & -> & Hq & _);
            exists [reply], (EvFetch (request_of (messages st) systemPrompt config) :: evs);
            simpl; split; [reflexivity|]; split;
            [now rewrite <- app_assoc|now rewrite (quiet_fetches evs Hq)]].
        destruct (process_response_spec contentBlocks
                    (emit (EvFetch (request_of (messages st) systemPrompt config)) st)
                    Hprints)
          as (evs & Hp & _ & Hq).
        cbn zeta in Hp. rewrite Hp. clear Hp.
        set (results := results_for _ _).
        set (st2 := {| messages := _; world := _; trace := _ |}).
        destruct results as [|r rs].
        -- exists [reply], (EvFetch (request_of (messages st) systemPrompt config)
                            :: evs ++ List.map EvPush (appended contentBlocks [])).
           simpl. split; [reflexivity|]. split.
           ++ rewrite <- app_assoc. reflexivity.
           ++ rewrite fetches_app, (quiet_fetches evs Hq). reflexivity.
        -- destruct (IH st2) as (consumed & evs' & Hrest & Htrace & Hcount).
           exists (reply :: consumed),
                  (EvFetch (request_of (messages st) systemPrompt config)
                   :: evs ++ List.map EvPush (appended contentBlocks (r :: rs)) ++ evs').
           split; [simpl; now rewrite <- Hrest|]. split.
           ++ rewrite Htrace. unfold st2. simpl. rewrite <- !app_assoc. reflexivity.
           ++ simpl. rewrite !fetches_app, (quiet_fetches evs Hq). simpl.
              now rewrite Hcount.
      * exists [reply], [EvFetch (request_of (messages st) systemPrompt config)]. auto.
    + exists [reply], [EvFetch (request_of (messages st) systemPrompt config)]. auto.
Qed.

End TurnFacts.

(** *** The world and the trace *)

Section ReplayFacts.
Context {P : Platform}.

Lemma process_response_replays (contentBlocks : list ContentBlock) (st : State) :
  exists evs,
    trace (snd (process_response contentBlocks st)) = trace st ++ evs
    /\ replays (world st) evs (world (snd (process_response contentBlocks st))).
Proof.
  destruct (forallb header_prints (List.filter is_tool_use contentBlocks)) eqn:Hprints;
    [|destruct (process_response_throw contentBlocks st Hprints)
        as (msg & evs & w' & -> & _ & Hr);
      exists evs; split; [reflexivity|exact Hr]].
  destruct (process_response_spec contentBlocks st Hprints) as (evs & Hp & Hinv & _).
  cbn zeta in Hp, Hinv. rewrite Hp. cbn [snd trace world].
  set (calls := List.map invocation_of (List.filter is_tool_use contentBlocks)) in *.
  pose proof (run_tools_length calls (world st)) as Hlen.
  eexists. split; [reflexivity|].
  apply (replays_app _ (snd (run_tools calls (world st)))).
  - unfold replays. rewrite Hinv, calls_with_fst, calls_with_snd by exact Hlen.
    now destruct (run_tools calls (world st)).
  - apply replays_none. apply invocations_pushes.
Qed.

Lemma agentic_replays (config : ApiConfig) (systemPrompt : string) (replies : list Reply) :
  forall st,
  exists evs,
    trace (snd (agentic config systemPrompt replies st)) = trace st ++ evs
    /\ replays (world st) evs (world (snd (agentic config systemPrompt replies st))).
Proof.
  induction replies as [|reply rest IH]; intros st; simpl.
  - eexists [_]. split; [reflexivity|]. now apply replays_none.
  - set (st1 := emit (EvFetch (request_of (messages st) systemPrompt config)) st).
    assert (H1 : exists evs, trace st1 = trace st ++ evs /\ replays (world st) evs (world st1)).
    { eexists [_]. split; [reflexivity|]. now apply replays_none. }
    destruct (callApi reply) as [response|msg]; [|exact H1].
    destruct (decode config response) as [contentBlocks|msg]; [|exact H1].
    destruct H1 as (evs1 & Ht1 & Hr1).
    destruct (process_response_replays contentBlocks st1) as (evs2 & Ht2 & Hr2).
    destruct (process_response contentBlocks st1) as [[[|]|msg] st2]; cbn [snd] in *.
    + destruct (IH st2) as (evs3 & Ht3 & Hr3).
      exists (evs1 ++ evs2 ++ evs3). split.
      * rewrite Ht3, Ht2, Ht1. now rewrite <- !app_assoc.
      * eapply replays_app; [exact Hr1|]. eapply replays_app; [exact Hr2|exact Hr3].
    + exists (evs1 ++ evs2). split.
      * rewrite Ht2, Ht1. now rewrite <- !app_assoc.
      * eapply replays_app; [exact Hr1|exact Hr2].
    + exists (evs1 ++ evs2). split.
      * rewrite Ht2, Ht1. now rewrite <- !app_assoc.
      * eapply replays_app; [exact Hr1|exact Hr2].
Qed.

Lemma iteration_replays (config : ApiConfig) (systemPrompt userInput : string)
    (replies : list Reply) (st : State) :
  exists evs,
    trace (snd (iteration config systemPrompt userInput replies st)) = trace st ++ evs
    /\ replays (world st) evs
         (world (snd (iteration config systemPrompt userInput replies st))).
Proof.
  destruct (is_prompt userInput) eqn:Hprompt.
  - rewrite iteration_prompt by exact Hprompt.
    set (st0 := push _ _).
    assert (H0 : exists evs, trace st0 = trace st ++ evs /\ replays (world st) evs (world st0)).
    { eexists [_; _; _]. split; [unfold st0, push, emit; simpl; now rewrite <- !app_assoc|].
      now apply replays_none. }
    destruct H0 as (evs0 & Ht0 & Hr0).
    destruct (agentic_replays config systemPrompt replies st0) as (evs1 & Ht1 & Hr1).
    destruct (agentic config systemPrompt replies st0) as [[[| msg |] rest] st'];
      cbn [snd] in *.
    + exists (evs0 ++ evs1 ++ [EvLog BlankLine]). split.
      * unfold emit. simpl. rewrite Ht1, Ht0. now rewrite <- !app_assoc.
      * eapply replays_app; [exact Hr0|]. eapply replays_app; [exact Hr1|].
        now apply replays_none.
    + destruct (Js.includes msg "SIGINT"); cbn [snd].
      * exists (evs0 ++ evs1). split; [rewrite Ht1, Ht0; now rewrite <- app_assoc|].
        eapply replays_app; [exact Hr0|exact Hr1].
      * exists (evs0 ++ evs1 ++ [EvLog (ErrorLine msg)]). split.
        -- unfold emit. simpl. rewrite Ht1, Ht0. now rewrite <- !app_assoc.
        -- eapply replays_app; [exact Hr0|]. eapply replays_app; [exact Hr1|].
           now apply replays_none.
    + exists (evs0 ++ evs1). split; [rewrite Ht1, Ht0; now rewrite <- app_assoc|].
      eapply replays_app; [exact Hr0|exact Hr1].
  - destruct (iteration_command config systemPrompt userInput replies st Hprompt)
      as (control & evs & -> & _ & Hinv & _).
    exists evs. split; [reflexivity|]. now apply replays_none.
Qed.

Lemma main_loop_replays (config : ApiConfig) (systemPrompt : string) (inputs : list string) :
  forall replies st,
  exists evs,
    trace (snd (main_loop config systemPrompt inputs replies st)) = trace st ++ evs
    /\ replays (world st) evs (world (snd (main_loop config systemPrompt inputs replies st))).
Proof.
  induction inputs as [|userInput more IH]; intros replies st; simpl.
  - eexists [_]. split; [reflexivity|]. now apply replays_none.
  - destruct (iteration_replays config systemPrompt userInput replies st) as (evs1 & Ht1 & Hr1).
    destruct (iteration config systemPrompt userInput replies st) as [[[| |] rest] st'];
      cbn [snd] in *; [|now exists evs1|now exists evs1].
    destruct (IH rest st') as (evs2 & Ht2 & Hr2).
    exists (evs1 ++ evs2). split; [rewrite Ht2, Ht1; now rewrite <- app_assoc|].
    eapply replays_app; [exact Hr1|exact Hr2].
Qed.

(** X19. The world [main] leaves is the one the tool calls of its trace make:
    run again, in the order recorded and from the world [main] started
    in, they return the recorded results and leave that world.  Nothing
    but the tools changes the world. *)
Theorem world_is_made_by_the_tools (config : ApiConfig) (cwd : string)
    (inputs : list string) (replies : list Reply) (w : World) :
  replays w (trace (snd (main config cwd inputs replies w)))
          (world (snd (main config cwd inputs replies w))).
Proof.
  unfold main.
  destruct (main_loop_replays config ("Concise coding assistant. cwd: " ++ cwd)%string
              inputs replies (initial w)) as (evs & Ht & Hr).
  rewrite Ht. apply (replays_app w w); [now apply replays_none|exact Hr].
Qed.

End ReplayFacts.

(** *** The shape of the history *)

Lemma nth_error_snoc {A : Type} (l : list A) (x y : A) (i : nat) :
  nth_error (l ++ [x]) i = Some y ->
  nth_error l i = Some y \/ (i = List.length l /\ y = x).
Proof.
  intros H. destruct (Nat.lt_ge_cases i (List.length l)) as [Hlt|Hge].
  - left. now rewrite List.nth_error_app1 in H.
  - right. rewrite List.nth_error_app2 in H by exact Hge.
    destruct (i - List.length l) as [|k] eqn:E; simpl in H.
    + split; [lia|congruence].
    + now destruct k.
Qed.

Lemma nth_error_snoc_l {A : Type} (l : list A) (x y : A) (i : nat) :
  nth_error l i = Some y -> nth_error (l ++ [x]) i = Some y.
Proof.
  intros H. rewrite List.nth_error_app1; [exact H|].
  apply List.nth_error_Some. congruence.
Qed.

Lemma nth_error_snoc_last {A : Type} (l : list A) (x : A) :
  nth_error (l ++ [x]) (List.length l) = Some x.
Proof. rewrite List.nth_error_app2 by lia. now rewrite Nat.sub_diag. Qed.

Lemma answers_keep (history : list Message) (msg : Message) :
  results_answer_requests history ->
  (forall results, msg <> {| role := user; content := Blocks results |}) ->
  results_answer_requests (history ++ [msg]).
Proof.
  intros H Hother i results Hi.
  destruct (nth_error_snoc _ _ _ _ Hi) as [Hin|[_ Heq]].
  - destruct (H i results Hin) as (Hne & j & bs & -> & Hj & Hids).
    split; [exact Hne|]. exists j, bs. split; [reflexivity|].
    split; [now apply nth_error_snoc_l|exact Hids].
  - symmetry in Heq. now apply Hother in Heq.
Qed.

Lemma answers_results (history : list Message) (contentBlocks results : list ContentBlock) :
  results_answer_requests (history ++ [ {| role := assistant; content := Blocks contentBlocks |} ]) ->
  results <> [] ->
  List.map b_tool_use_id results = List.map b_id (List.filter is_tool_use contentBlocks) ->
  results_answer_requests
    ((history ++ [ {| role := assistant; content := Blocks contentBlocks |} ])
     ++ [ {| role := user; content := Blocks results |} ]).
Proof.
  intros H Hne Hids i rs Hi.
  destruct (nth_error_snoc _ _ _ _ Hi) as [Hin|[-> Heq]].
  - destruct (H i rs Hin) as (Hne' & j & bs & -> & Hj & Hids').
    split; [exact Hne'|]. exists j, bs. split; [reflexivity|].
    split; [now apply nth_error_snoc_l|exact Hids'].
  - injection Heq as ->. split; [exact Hne|].
    exists (List.length history), contentBlocks.
    split; [rewrite length_app; simpl; lia|].
    split; [|exact Hids]. apply nth_error_snoc_l, nth_error_snoc_last.
Qed.

Lemma follows_keep (history : list Message) (msg : Message) :
  assistant_follows_user history ->
  role msg <> assistant ->
  assistant_follows_user (history ++ [msg]).
Proof.
  intros H Hother i m Hi Hrole.
  destruct (nth_error_snoc _ _ _ _ Hi) as [Hin|[_ ->]]; [|contradiction].
  destruct (H i m Hin Hrole) as (j & u & -> & Hj & Hu).
  exists j, u. split; [reflexivity|]. split; [now apply nth_error_snoc_l|exact Hu].
Qed.

Lemma follows_assistant (history : list Message) (msg : Message) :
  assistant_follows_user history ->
  ends_with_user history ->
  assistant_follows_user (history ++ [msg]).
Proof.
  intros H (before & last & -> & Hlast) i m Hi Hrole.
  destruct (nth_error_snoc _ _ _ _ Hi) as [Hin|[-> ->]].
  - destruct (H i m Hin Hrole) as (j & u & -> & Hj & Hu).
    exists j, u. split; [reflexivity|]. split; [now apply nth_error_snoc_l|exact Hu].
  - exists (List.length before), last.
    split; [rewrite length_app; simpl; lia|].
    split; [|exact Hlast]. apply nth_error_snoc_l, nth_error_snoc_last.
Qed.

Section HistoryFacts.
Context {P : Platform}.

Lemma sound_same (config : ApiConfig) (systemPrompt : string) (st st' : State) :
  sound config systemPrompt st ->
  messages st' = messages st ->
  fetches (trace st') = fetches (trace st) ->
  sound config systemPrompt st'.
Proof.
  intros (Ha & Hf & Hr) Hm Ht. unfold sound, requests_end_with_user.
  rewrite Hm, Ht. auto.
Qed.

Lemma sound_cleared (config : ApiConfig) (systemPrompt : string) (st st' : State) :
  sound config systemPrompt st ->
  messages st' = [] ->
  fetches (trace st') = fetches (trace st) ->
  sound config systemPrompt st'.
Proof.
  intros (_ & _ & Hr) Hm Ht. unfold sound, requests_end_with_user.
  rewrite Hm, Ht. split; [|split; [|exact Hr]].
  - intros i results Hi. now destruct i.
  - intros i msg Hi. now destruct i.
Qed.

Lemma sound_fetch (config : ApiConfig) (systemPrompt : string) (st : State) :
  sound config systemPrompt st ->
  ends_with_user (messages st) ->
  sound config systemPrompt (emit (EvFetch (request_of (messages st) systemPrompt config)) st).
Proof.
  intros (Ha & Hf & Hr) Hu. split; [exact Ha|split; [exact Hf|]].
  intros request Hin. unfold emit in Hin. simpl in Hin.
  rewrite fetches_app in Hin. apply in_app_or in Hin. destruct Hin as [Hin|[<-|[]]].
  - now apply Hr.
  - now exists (messages st).
Qed.

Lemma sound_process_response (config : ApiConfig) (systemPrompt : string)
    (contentBlocks : list ContentBlock) (st : State) :
  sound config systemPrompt st ->
  ends_with_user (messages st) ->
  sound config systemPrompt (snd (process_response contentBlocks st))
  /\ (fst (process_response contentBlocks st) = Ok true ->
      ends_with_user (messages (snd (process_response contentBlocks st)))).
Proof.
  intros Hs Hu.
  destruct (forallb header_prints (List.filter is_tool_use contentBlocks)) eqn:Hprints;
    [|destruct (process_response_throw contentBlocks st Hprints)
        as (msg & evs & w' & -> & Hq & _);
      cbn [fst snd]; split; [|discriminate];
      apply (sound_same config systemPrompt st); [exact Hs|reflexivity|];
      cbn [trace]; now rewrite fetches_app, (quiet_fetches evs Hq), app_nil_r].
  destruct Hs as (Ha & Hf & Hr).
  destruct (process_response_spec contentBlocks st Hprints) as (evs & Hp & _ & Hq).
  cbn zeta in Hp. rewrite Hp. clear Hp. cbn [fst snd].
  set (uses := List.filter is_tool_use contentBlocks).
  set (ran := run_tools (List.map invocation_of uses) (world st)).
  assert (Hlen : List.length (fst ran) = List.length uses).
  { unfold ran. rewrite run_tools_length. apply length_map. }
  pose proof (results_for_ids uses (fst ran) Hlen) as Hids.
  set (assistant_message := {| role := assistant; content := Blocks contentBlocks |}).
  assert (Ha1 : results_answer_requests (messages st ++ [assistant_message])).
  { apply answers_keep; [exact Ha|]. intros results. discriminate. }
  assert (Hf1 : assistant_follows_user (messages st ++ [assistant_message])).
  { now apply follows_assistant. }
  assert (Hreq : forall pushed,
             requests_end_with_user config systemPrompt
               (trace st ++ evs ++ List.map EvPush pushed)).
  { intros pushed request Hin. apply Hr.
    rewrite !fetches_app, (quiet_fetches evs Hq), fetches_pushes, !app_nil_r in Hin.
    exact Hin. }
  unfold appended. fold assistant_message.
  destruct (results_for uses (fst ran)) as [|r rs] eqn:Hres; cbn [messages trace].
  - split; [|discriminate]. split; [exact Ha1|split; [exact Hf1|apply Hreq]].
  - split.
    + split; [|split; [|apply Hreq]].
      * change (messages st ++ [assistant_message; {| role := user; content := Blocks (r :: rs) |}])
          with (messages st ++ [assistant_message] ++ [ {| role := user; content := Blocks (r :: rs) |} ]).
        rewrite app_assoc. apply answers_results; [exact Ha1|discriminate|exact Hids].
      * change (messages st ++ [assistant_message; {| role := user; content := Blocks (r :: rs) |}])
          with (messages st ++ [assistant_message] ++ [ {| role := user; content := Blocks (r :: rs) |} ]).
        rewrite app_assoc. apply follows_keep; [exact Hf1|discriminate].
    + intros _. exists (messages st ++ [assistant_message]),
                       {| role := user; content := Blocks (r :: rs) |}.
      split; [|reflexivity]. now rewrite <- app_assoc.
Qed.

Lemma sound_agentic (config : ApiConfig) (systemPrompt : string) (replies : list Reply) :
  forall st,
    sound config systemPrompt st ->
    ends_with_user (messages st) ->
    sound config systemPrompt (snd (agentic config systemPrompt replies st)).
Proof.
  induction replies as [|reply rest IH]; intros st Hs Hu; simpl.
  - now apply sound_fetch.
  - pose proof (sound_fetch config systemPrompt st Hs Hu) as H1.
    destruct (callApi reply) as [response|msg]; [|exact H1].
    destruct (decode config response) as [contentBlocks|msg]; [|exact H1].
    destruct (sound_process_response config systemPrompt contentBlocks _ H1 Hu) as [H2 Hu2].
    destruct (process_response contentBlocks _) as [[[|]|msg] st2]; cbn [fst snd] in *.
    + apply IH; [exact H2|now apply Hu2].
    + exact H2.
    + exact H2.
Qed.

Lemma sound_iteration (config : ApiConfig) (systemPrompt userInput : string)
    (replies : list Reply) (st : State) :
  sound config systemPrompt st ->
  sound config systemPrompt (snd (iteration config systemPrompt userInput replies st)).
Proof.
  intros Hs. destruct (is_prompt userInput) eqn:Hprompt.
  - rewrite iteration_prompt by exact Hprompt.
    set (asked := {| role := user; content := Text userInput |}).
    set (st0 := push asked (emit (EvLog Separator) (emit (EvLog Separator) st))).
    assert (H0 : sound config systemPrompt st0).
    { destruct Hs as (Ha & Hf & Hr). split; [|split].
      - apply answers_keep; [exact Ha|]. intros results. discriminate.
      - apply follows_keep; [exact Hf|]. discriminate.
      - intros request Hin. apply Hr. unfold st0, push, emit in Hin. simpl in Hin.
        rewrite !fetches_app in Hin. simpl in Hin. now rewrite !app_nil_r in Hin. }
    assert (Hu : ends_with_user (messages st0)).
    { now exists (messages st), asked. }
    pose proof (sound_agentic config systemPrompt replies st0 H0 Hu) as H1.
    destruct (agentic config systemPrompt replies st0) as [[[| msg |] rest] st'];
      cbn [snd] in *.
    + apply (sound_same _ _ st'); [exact H1|reflexivity|].
      unfold emit. simpl. rewrite fetches_app. apply app_nil_r.
    + destruct (Js.includes msg "SIGINT"); cbn [snd]; [exact H1|].
      apply (sound_same _ _ st'); [exact H1|reflexivity|].
      unfold emit. simpl. rewrite fetches_app. apply app_nil_r.
    + exact H1.
  - destruct (iteration_command config systemPrompt userInput replies st Hprompt)
      as (control & evs & -> & Hfetch & _ & _). cbn [snd].
    destruct (String.eqb userInput "/c").
    + apply (sound_cleared _ _ st); [exact Hs|reflexivity|].
      simpl. rewrite fetches_app, Hfetch. apply app_nil_r.
    + apply (sound_same _ _ st); [exact Hs|reflexivity|].
      simpl. rewrite fetches_app, Hfetch. apply app_nil_r.
Qed.

Lemma sound_main_loop (config : ApiConfig) (systemPrompt : string) (inputs : list string) :
  forall replies st,
    sound config systemPrompt st ->
    sound config systemPrompt (snd (main_loop config systemPrompt inputs replies st)).
Proof.
  induction inputs as [|userInput more IH]; intros replies st Hs; simpl.
  - apply (sound_same _ _ st); [exact Hs|reflexivity|].
    unfold emit. simpl. rewrite fetches_app. apply app_nil_r.
  - pose proof (sound_iteration config systemPrompt userInput replies st Hs) as Hi.
    destruct (iteration config systemPrompt userInput replies st) as [[[| |] rest] st'];
      cbn [snd] in *; [now apply IH|exact Hi|exact Hi].
Qed.

Lemma sound_main (config : ApiConfig) (cwd : string)
    (inputs : list string) (replies : list Reply) (w : World) :
  sound config ("Concise coding assistant. cwd: " ++ cwd)%string
        (snd (main config cwd inputs replies w)).
Proof.
  unfold main. apply sound_main_loop. split; [|split].
  - intros i results Hi. now destruct i.
  - intros i msg Hi. now destruct i.
  - intros request [].
Qed.

(** X20. In the history [main] keeps, whatever was typed and answered, every
    message of tool results is not empty, stands right after an assistant
    message, and carries the ids of the [tool_use] blocks of that message,
    one result for each and in their order. *)
Theorem tool_results_answer_the_previous_message (config : ApiConfig) (cwd : string)
    (inputs : list string) (replies : list Reply) (w : World) :
  results_answer_requests (messages (snd (main config cwd inputs replies w))).
Proof. exact (proj1 (sound_main config cwd inputs replies w)). Qed.

(** X21. In the history [main] keeps, every assistant message stands right
    after a message of the user: the history never starts with an
    assistant message and never has two of them in a row, also after
    failed turns and after [/c]. *)
Theorem assistant_messages_follow_the_user (config : ApiConfig) (cwd : string)
    (inputs : list string) (replies : list Reply) (w : World) :
  assistant_follows_user (messages (snd (main config cwd inputs replies w))).
Proof. exact (proj1 (proj2 (sound_main config cwd inputs replies w))). Qed.

(** X22. Every request [main] sends carries a history that ends with a message
    of the user: the line just typed or the results of the tools just
    run. *)
Theorem every_request_ends_with_the_user (config : ApiConfig) (cwd : string)
    (inputs : list string) (replies : list Reply) (w : World) :
  requests_end_with_user config ("Concise coding assistant. cwd: " ++ cwd)%string
    (trace (snd (main config cwd inputs replies w))).
Proof. exact (proj2 (proj2 (sound_main config cwd inputs replies w))). Qed.

End HistoryFacts.

(** *** Leaving, empty replies and failures in the middle of a turn *)

Section EndingFacts.
Context {P : Platform}.

(** X23. What is typed after [/q] or [exit] is never read: the run is the one
    of the lines up to the command, and it does not end at the prompt. *)
Theorem nothing_is_read_after_quit (config : ApiConfig) (systemPrompt quit : string)
    (before after : list string) :
  quit = "/q" \/ quit = "exit" ->
  forall replies st,
    main_loop config systemPrompt (before ++ quit :: after) replies st
    = main_loop config systemPrompt (before ++ [quit]) replies st
    /\ fst (main_loop config systemPrompt (before ++ quit :: after) replies st)
       <> AwaitingUserInput.
Proof.
  intros Hquit. induction before as [|userInput before IH]; intros replies st.
  - destruct Hquit as [-> | ->]; simpl; split; [reflexivity|discriminate|reflexivity|discriminate].
  - rewrite <- !List.app_comm_cons. cbn [main_loop].
    destruct (iteration config systemPrompt userInput replies st) as [[[| |] rest] st'].
    + apply IH.
    + split; [reflexivity|discriminate].
    + split; [reflexivity|discriminate].
Qed.

(** X24. A successful reply without choices, with an empty list of choices or
    whose first choice has no message, and without content, is an empty
    answer for every provider: the turn ends at the prompt after its one
    request, and the history has grown by the user message and an
    assistant message with no block. *)
Theorem empty_reply_ends_the_turn (config : ApiConfig) (systemPrompt userInput : string)
    (response : Response) (rest : list Reply) (st : State) :
  is_prompt userInput = true ->
  (resp_choices response = None
   \/ resp_choices response = Some []
   \/ exists choices, resp_choices response = Some ({| message := None |} :: choices)) ->
  resp_content response = None ->
  let asked := {| role := user; content := Text userInput |} in
  let answer := {| role := assistant; content := Blocks [] |} in
  iteration config systemPrompt userInput (HttpOk response :: rest) st
  = (Continue, rest,
     {| messages := messages st ++ [asked; answer];
        world := world st;
        trace := trace st
                 ++ [ EvLog Separator; EvLog Separator; EvPush asked;
                      EvFetch (request_of (messages st ++ [asked]) systemPrompt config);
                      EvPush answer; EvLog BlankLine ] |}).
Proof.
  intros Hprompt Hchoices Hcontent asked answer.
  assert (Hdec : decode config response = Ok []).
  { unfold decode. rewrite Hcontent.
    destruct (provider config); try reflexivity.
    destruct Hchoices as [-> | [-> | [choices ->]]]; reflexivity. }
  rewrite iteration_prompt by exact Hprompt.
  rewrite (agentic_round _ _ _ _ _ response []) by (reflexivity || exact Hdec).
  unfold process_response, push, emit. simpl.
  rewrite <- !app_assoc. reflexivity.
Qed.

(** X25. A failure in the middle of a turn takes nothing back.  When the first
    reply asks for tools, the header line of each of them can be printed,
    and the second reply is a failure status (whose message does not
    contain [SIGINT]), the pass ends at the prompt with the error shown
    last; the history keeps the user message, the assistant message and
    the tool results, the world is the one the tools left, and two
    requests were sent. *)
Theorem failure_keeps_the_turn_so_far (config : ApiConfig) (systemPrompt userInput : string)
    (response : Response) (contentBlocks : list ContentBlock)
    (status : Z) (body : string) (rest : list Reply) (st : State) :
  is_prompt userInput = true ->
  decode config response = Ok contentBlocks ->
  List.filter is_tool_use contentBlocks <> [] ->
  forallb header_prints (List.filter is_tool_use contentBlocks) = true ->
  Js.includes ("API error: " ++ Js.string_of_Z status ++ " - " ++ body) "SIGINT" = false ->
  let uses := List.filter is_tool_use contentBlocks in
  let ran := run_tools (List.map invocation_of uses) (world st) in
  exists evs,
    iteration config systemPrompt userInput
      (HttpOk response :: HttpError status body :: rest) st
    = (Continue, rest,
       {| messages := messages st
                      ++ [ {| role := user; content := Text userInput |};
                           {| role := assistant; content := Blocks contentBlocks |};
                           {| role := user; content := Blocks (results_for uses (fst ran)) |} ];
          world := snd ran;
          trace := trace st ++ evs
                   ++ [ EvLog (ErrorLine ("API error: " ++ Js.string_of_Z status
                                          ++ " - " ++ body)) ] |})
    /\ List.length (fetches evs) = 2.
Proof.
  intros Hprompt Hdec Huses Hprints Hsig uses ran.
  rewrite iteration_prompt by exact Hprompt.
  rewrite (agentic_round _ _ _ _ _ response contentBlocks) by (reflexivity || exact Hdec).
  unfold push, emit. cbn [messages world trace].
  match goal with |- context [process_response _ ?s] =>
    destruct (process_response_spec contentBlocks s Hprints) as (evs & Hp & _ & Hq) end.
  cbn zeta in Hp. cbn [messages world trace] in Hp. rewrite Hp. clear Hp.
  fold uses. fold ran.
  assert (Hlen : List.length (fst ran) = List.length uses).
  { unfold ran. rewrite run_tools_length. apply length_map. }
  destruct (results_for uses (fst ran)) as [|r rs] eqn:Hres.
  - exfalso. apply Huses. fold uses. clearbody uses ran.
    destruct uses as [|u uses]; [reflexivity|].
    destruct (fst ran); simpl in *; discriminate.
  - cbn [agentic callApi]. rewrite Hsig.
    eexists ([ EvLog Separator; EvLog Separator;
               EvPush {| role := user; content := Text userInput |};
               EvFetch (request_of (messages st ++ [ {| role := user; content := Text userInput |} ])
                                   systemPrompt config) ]
             ++ evs
             ++ List.map EvPush (appended contentBlocks (r :: rs))
             ++ [ EvFetch _ ]).
    split.
    + unfold emit, appended. cbn [messages world trace List.map].
      rewrite <- ?app_assoc. cbn [app]. rewrite <- ?app_assoc. reflexivity.
    + rewrite !fetches_app, (quiet_fetches evs Hq), fetches_pushes. reflexivity.
Qed.

End EndingFacts.

(** ** The preview of a result *)

Lemma take_all (s : string) (n : nat) : String.length s <= n -> Js.take n s = s.
Proof.
  revert n. induction s as [|c s IH]; intros n H; [now destruct n|].
  destruct n as [|n]; simpl in *; [lia|]. rewrite IH; [reflexivity|lia].
Qed.

(** X26. A result of one line is shown whole when it has at most sixty
    characters, and cut after sixty with an ellipsis otherwise; a result
    of several lines is shown by the head of its first line and the
    number of its line breaks. *)
Theorem preview_counts_line_breaks (result : string) :
  let breaks := Js.match_count result (String "010" EmptyString) in
  let first := List.hd EmptyString (Js.split result (String "010" EmptyString)) in
  (breaks = 0 -> String.length result <= 60 -> preview result = result)
  /\ (breaks = 0 -> 60 < String.length result ->
      preview result = (Js.take 60 result ++ "...")%string)
  /\ (0 < breaks ->
      preview result
      = (Js.take 60 first ++ " ... +" ++ Js.string_of_nat breaks ++ " lines")%string).
Proof.
  cbv zeta. unfold preview, Js.split, Js.match_count.
  pose proof (length_split_go (String "010" EmptyString) result 0 "") as Hlen.
  split; [|split].
  - intros Hzero Hshort.
    apply count_zero_iff in Hzero; [|discriminate].
    rewrite (split_go_none _ _ "" Hzero), append_nil_l.
    cbn [List.hd List.length]. change (1 <? 1)%nat with false. cbv iota.
    destruct (Nat.ltb_spec 60 (String.length result)); [lia|]. now apply take_all.
  - intros Hzero Hlong.
    apply count_zero_iff in Hzero; [|discriminate].
    rewrite (split_go_none _ _ "" Hzero), append_nil_l.
    cbn [List.hd List.length]. change (1 <? 1)%nat with false. cbv iota.
    destruct (Nat.ltb_spec 60 (String.length result)); [reflexivity|lia].
  - intros Hsome. rewrite Hlen.
    destruct (Nat.ltb_spec 1 (S (Js.count_go (String "010" EmptyString) result 0))); [|lia].
    cbn [Nat.sub]. now rewrite Nat.sub_0_r.
Qed.

(** * Runs on the in-memory platform *)

#[local] Existing Instance Mem.platform.

Example groq_config_provider : provider groq_config = groq.
Proof. reflexivity. Qed.

Example anthropic_config_provider : provider anthropic_config = anthropic.
Proof. reflexivity. Qed.

Example edit_all_replaces_both :
  fs_readFileSync (Some (JStr "a.txt"))
    (snd (editFile (JObj [("path", JStr "a.txt"); ("old", JStr "foo"); ("new", JStr "bar");
                          ("all", JBool true)]) one_file))
  = Ok "bar bar".
Proof. vm_compute. reflexivity. Qed.

Example read_numbers_lines :
  runTool "read" (JObj [("path", JStr "a.txt")]) one_file = ("   1| foo foo", one_file).
Proof. vm_compute. reflexivity. Qed.

Example read_with_offset :
  runTool "read" (JObj [("path", JStr "notes"); ("offset", JNum 1); ("limit", JNum 2)]) three_lines
  = (("   2| two" ++ String "010" "   3| three")%string, three_lines).
Proof. vm_compute. reflexivity. Qed.

(** Negative offsets count from the end, and so does the end of the
    slice. *)
Example read_from_the_end :
  runTool "read" (JObj [("path", JStr "notes"); ("offset", JNum (-1)); ("limit", JNum 1)])
          three_lines
  = ("", three_lines)
  /\ runTool "read" (JObj [("path", JStr "notes"); ("offset", JNum (-2)); ("limit", JNum 1)])
             three_lines
     = ("  -1| two", three_lines).
Proof. split; vm_compute; reflexivity. Qed.

(** An offset given as text makes every sum a concatenation. *)
Example read_text_offset :
  runTool "read" (JObj [("path", JStr "notes"); ("offset", JStr "1"); ("limit", JNum 1)]) three_lines
  = ((" 101| two" ++ String "010" " 111| three")%string, three_lines).
Proof. vm_compute. reflexivity. Qed.

Example read_missing_file :
  runTool "read" (JObj [("path", JStr "nope")]) three_lines
  = ("error: ENOENT: no such file or directory, open 'nope'", three_lines).
Proof. vm_compute. reflexivity. Qed.

(** The two searching tools get a promise where they expect the paths. *)
Example grep_fails :
  runTool "grep" (JObj [("pat", JStr "t")]) three_lines
  = ("error: files is not iterable", three_lines).
Proof. vm_compute. reflexivity. Qed.

Example glob_fails :
  runTool "glob" (JObj [("pat", JStr "*.txt")]) one_file
  = ("error: files.sort is not a function", one_file).
Proof. vm_compute. reflexivity. Qed.

(** An offset that cannot be converted to a primitive is an error of the
    tool, not of the loop. *)
Example read_object_offset :
  runTool "read" (JObj [("path", JStr "notes"); ("offset", JObj [("toString", JNum 1)])])
          three_lines
  = ("error: Cannot convert object to primitive value", three_lines).
Proof. vm_compute. reflexivity. Qed.

Example edit_null_old :
  runTool "edit" (JObj [("path", JStr "a.txt"); ("old", JNull)])
          (({[ "a.txt" := "null" ]} : gmap string string) : @World Mem.platform)
  = ("error: Cannot read properties of null (reading 'replace')",
     (({[ "a.txt" := "null" ]} : gmap string string) : @World Mem.platform)).
Proof. vm_compute. reflexivity. Qed.

Example glob_without_pattern :
  runTool "glob" (JObj []) one_file
  = ("error: The path argument must be of type string", one_file).
Proof. vm_compute. reflexivity. Qed.

Example bash_echo :
  runTool "bash" (JObj [("cmd", JStr "echo  hello ")]) no_files = ("hello", no_files).
Proof. vm_compute. reflexivity. Qed.

Example bash_silent :
  runTool "bash" (JObj [("cmd", JStr "true")]) no_files = ("(empty)", no_files).
Proof. vm_compute. reflexivity. Qed.

Example write_wrong_type :
  runTool "write" (JObj [("path", JStr "a.txt"); ("content", JNum 1)]) one_file
  = ("error: The data argument must be of type string", one_file).
Proof. vm_compute. reflexivity. Qed.

Example edit_wrong_type :
  runTool "edit" (JObj [("path", JStr "a.txt"); ("old", JArr [JStr "foo"])]) one_file
  = ("error: old.replace is not a function", one_file).
Proof. vm_compute. reflexivity. Qed.

Example edit_missing_old :
  runTool "edit" (JObj [("path", JStr "a.txt")]) one_file
  = ("error: old_string not found", one_file).
Proof. vm_compute. reflexivity. Qed.

Example inherited_name :
  runTool "toString" (JObj []) no_files = ("error: TOOLS[name].fn is not a function", no_files).
Proof. vm_compute. reflexivity. Qed.

(** The user asks for the files, the model calls [glob], the answer of
    the tool goes back in a second request, the model answers in text. *)
Example list_files_scenario :
  exists st,
    main anthropic_config "/repo" ["list files"]
      [ HttpOk {| resp_choices := None; resp_content := Some [glob_call] |};
        HttpOk {| resp_choices := None; resp_content := Some [text_block "none found"] |} ]
      no_files
    = (AwaitingUserInput, st)
    /\ messages st
       = [ {| role := user; content := Text "list files" |};
           {| role := assistant; content := Blocks [glob_call] |};
           {| role := user;
              content := Blocks [tool_result_block (Some "t1")
                                   "error: files.sort is not a function"] |};
           {| role := assistant; content := Blocks [text_block "none found"] |} ]
    /\ List.length (fetches (trace st)) = 2.
Proof. eexists. split; [vm_compute; reflexivity|]. split; reflexivity. Qed.

(** A call of a tool that is not registered is answered like any other,
    and the loop asks the model again. *)
Example unknown_tool_scenario :
  exists st,
    main anthropic_config "/repo" ["go"]
      [ HttpOk {| resp_choices := None;
                  resp_content := Some [tool_use_block (Some "t9") (Some "frobnicate") None] |} ]
      no_files
    = (AwaitingTransport, st)
    /\ messages st
       = [ {| role := user; content := Text "go" |};
           {| role := assistant;
              content := Blocks [tool_use_block (Some "t9") (Some "frobnicate") None] |};
           {| role := user;
              content := Blocks [tool_result_block (Some "t9")
                "error: Cannot read properties of undefined (reading 'fn')"] |} ]
    /\ List.length (fetches (trace st)) = 2.
Proof. eexists. split; [vm_compute; reflexivity|]. split; reflexivity. Qed.

(** With the chat-with-tool-calls family, arguments that do not parse end
    the turn with an error, and the history keeps the user message only. *)
Example unparseable_arguments_scenario :
  exists st,
    main groq_config "/repo" ["go"]
      [ HttpOk (response_of_chat
                  {| chat_role := "assistant"; chat_content := None; tool_call_id := None;
                     tool_calls := Some [ {| tc_id := Some "c1"; tc_type := "function";
                                             tc_function := {| fc_name := Some "glob";
                                                               fc_arguments := Some "{pat" |} |} ] |}) ]
      no_files
    = (AwaitingUserInput, st)
    /\ messages st = [ {| role := user; content := Text "go" |} ]
    /\ List.last (trace st) EvClear = EvLog Separator
    /\ In (EvLog (ErrorLine "Unexpected token in JSON: {pat")) (trace st).
Proof.
  eexists. split; [vm_compute; reflexivity|]. split; [reflexivity|]. split; [reflexivity|].
  simpl. tauto.
Qed.

(** [/c] empties the history, also when it is empty already. *)
Example clear_scenario :
  messages (snd (main anthropic_config "/repo" ["hi"; "/c"; "/c"]
                      [HttpOk {| resp_choices := None; resp_content := None |}] no_files))
  = [].
Proof. vm_compute. reflexivity. Qed.

Example grep_invalid_regex :
  runTool "grep" (JObj [("pat", JStr "(")]) no_files
  = ("error: Invalid regular expression: /(/: Unterminated group", no_files).
Proof. vm_compute. reflexivity. Qed.

(** An unregistered name and a missing file both end in an [error:]
    string. *)
Lemma runTool_never_throws_witness :
  Js.startsWith (fst (runTool "frobnicate" (JObj []) no_files)) "error:" = true
  /\ runTool "edit" (JObj [("path", JStr "nope")]) no_files
     = ("error: ENOENT: no such file or directory, open 'nope'", no_files).
Proof.
  split.
  - destruct (runTool_never_throws "frobnicate" (JObj []) no_files) as (_ & Hunknown & _).
    apply Hunknown. reflexivity.
  - destruct (runTool_never_throws "edit" (JObj [("path", JStr "nope")]) no_files)
      as (_ & _ & Hthrows & _).
    refine (proj1 (Hthrows _ _ _ _ _)); reflexivity.
Defined.

Lemma editFile_error_leaves_file_witness :
  editFile edit_args one_file
  = (Ok "error: old_string appears 2 times, must be unique (use all=true)", one_file)
  /\ exists text,
       fs_readFileSync (prop edit_args "path") one_file = Ok text
       /\ ((exists searched, ToString_opt (prop edit_args "old") = Ok searched
                             /\ Js.includes text searched = false)
           \/ (truthy (prop edit_args "all") = false
               /\ exists old, prop edit_args "old" = Some (JStr old)
                              /\ 1 < Js.match_count text old)).
Proof.
  assert (Hrun : editFile edit_args one_file
                 = (Ok "error: old_string appears 2 times, must be unique (use all=true)",
                    one_file)) by (vm_compute; reflexivity).
  split; [exact Hrun|].
  exact (proj2 (editFile_error_leaves_file edit_args one_file one_file _ Hrun eq_refl)).
Defined.

Lemma makeSchema_required_and_types_witness :
  exists schema,
    In schema makeSchema
    /\ schema_name schema = "read"
    /\ (In "offset" (required (input_schema schema)) <-> Js.endsWith "number?" "?" = false)
    /\ assoc "offset" (properties (input_schema schema)) = Some "integer".
Proof.
  refine (makeSchema_required_and_types "read" _ "offset" "number?" _ _).
  - left. reflexivity.
  - right. left. reflexivity.
Defined.

Lemma assistant_round_trip_witness :
  exists m,
    encode_message {| role := assistant; content := Blocks [text_block "hi"; glob_call] |} = [m]
    /\ decode groq_config (response_of_chat m) = Ok [text_block "hi"; glob_call].
Proof.
  apply (assistant_round_trip groq_config [text_block "hi"; glob_call]).
  - reflexivity.
  - intros b [<-|[<-|[]]] Huse; [discriminate Huse|].
    exists (Some "t1"), (Some "glob"), (JObj [("pat", JStr "*.ts")]).
    split; [reflexivity|]. vm_compute. reflexivity.
Defined.

(** C1 fails: a text block whose text is empty does not come back, and of
    two text blocks around a tool call only the first does. *)
Lemma round_trip_loses_text_blocks :
  decode groq_config (response_of_chat (encode_assistant [text_block ""])) = Ok []
  /\ decode groq_config
       (response_of_chat (encode_assistant [text_block "a"; glob_call; text_block "b"]))
     = Ok [text_block "a"; glob_call].
Proof. split; vm_compute; reflexivity. Qed.

(** C5 fails: the first block carries the empty id, the chat message
    carries [unknown]. *)
Lemma empty_id_becomes_unknown :
  exists m,
    encode_message {| role := user; content := Blocks [tool_result_block (Some "") "ok"] |} = [m]
    /\ chat_role m = "tool"
    /\ tool_call_id m = Some "unknown"
    /\ tool_call_id m <> b_tool_use_id (tool_result_block (Some "") "ok").
Proof.
  eexists. split; [reflexivity|]. simpl. repeat split. discriminate.
Qed.

(** C4 fails: with one tool call in the response, the call is the third
    entry of the trace and the push of the assistant message the fifth. *)
Lemma tool_runs_before_assistant_push :
  ~ pushed_before_tools (trace (snd (process_response [glob_call] (initial no_files)))).
Proof.
  intros H.
  specialize (H 4 2 [glob_call] "glob" (JObj [("pat", JStr "*.ts")])
                "error: files.sort is not a function" eq_refl eq_refl).
  lia.
Qed.

Lemma assistant_pushed_after_tools_witness :
  exists evs,
    trace (snd (process_response [text_block "look"; write_call] (initial no_files)))
    = [EvLog Banner] ++ evs
      ++ [ EvPush {| role := assistant; content := Blocks [text_block "look"; write_call] |};
           EvPush {| role := user; content := Blocks [tool_result_block (Some "t1") "ok"] |} ]
    /\ forallb quiet evs = true
    /\ List.map fst (invocations evs)
       = [("write", JObj [("path", JStr "b.txt"); ("content", JStr "new")])]
    /\ List.map snd (invocations evs) = ["ok"]
    /\ messages (snd (process_response [text_block "look"; write_call] (initial no_files)))
       = [ {| role := assistant; content := Blocks [text_block "look"; write_call] |};
           {| role := user; content := Blocks [tool_result_block (Some "t1") "ok"] |} ]
    /\ world (snd (process_response [text_block "look"; write_call] (initial no_files)))
       = (<["b.txt" := "new"]> (∅ : gmap string string) : @World Mem.platform).
Proof.
  exact (assistant_pushed_after_tools [text_block "look"; write_call] (initial no_files)
           eq_refl).
Defined.

(** C2 fails: of two [tool_use] blocks with the same id, each gets its
    result, and two results carry that id. *)
Lemma same_id_answered_twice :
  exists results,
    messages (snd (process_response [write_call; write_call] (initial no_files)))
    = appended [write_call; write_call] results
    /\ List.length (answers_to (b_id write_call) results) = 2.
Proof.
  exists [tool_result_block (Some "t1") "ok"; tool_result_block (Some "t1") "ok"].
  split; [vm_compute; reflexivity|]. reflexivity.
Qed.

(** When the header line of a tool call cannot be printed, the turn ends
    with the error: the tool of the block before has run, the one of the
    block itself and of the blocks after it have not, and the history
    keeps the user message only. *)
Example headless_call_scenario :
  exists st,
    main anthropic_config "/repo" ["go"]
      [ HttpOk {| resp_choices := None;
                  resp_content := Some [write_call; headless_call; glob_call] |};
        HttpError 500 "unread" ]
      no_files
    = (AwaitingUserInput, st)
    /\ messages st = [ {| role := user; content := Text "go" |} ]
    /\ world st = (<["b.txt" := "new"]> (∅ : gmap string string) : @World Mem.platform)
    /\ List.map fst (invocations (trace st))
       = [("write", JObj [("path", JStr "b.txt"); ("content", JStr "new")])]
    /\ List.length (fetches (trace st)) = 1
    /\ In (EvLog (ErrorLine "Cannot convert object to primitive value")) (trace st).
Proof.
  eexists. split; [vm_compute; reflexivity|].
  split; [reflexivity|]. split; [vm_compute; reflexivity|].
  split; [reflexivity|]. split; [reflexivity|]. simpl. tauto.
Qed.

Lemma tool_results_correlated_witness :
  exists results,
    messages (snd (process_response [text_block "look"; glob_call] (initial no_files)))
    = appended [text_block "look"; glob_call] results
    /\ List.length (answers_to (Some "t1") results) = 1.
Proof.
  destruct (tool_results_correlated [text_block "look"; glob_call] (initial no_files) eq_refl)
    as (results & evs & Hmsgs & _ & _ & _ & _ & _ & _ & _ & Hone).
  exists results. split; [exact Hmsgs|].
  apply (Hone (List.NoDup_cons (Some "t1") (fun H : In (Some "t1") [] => H)
                               (List.NoDup_nil (option string)))
              glob_call).
  now left.
Defined.

Lemma http_error_reported_witness :
  iteration groq_config "sys" "hi" [HttpError 500 "overloaded"] (initial no_files)
  = (Continue, [],
     {| messages := [ {| role := user; content := Text "hi" |} ];
        world := no_files;
        trace := [ EvLog Banner; EvLog Separator; EvLog Separator;
                   EvPush {| role := user; content := Text "hi" |};
                   EvFetch (request_of [ {| role := user; content := Text "hi" |} ]
                                       "sys" groq_config);
                   EvLog (ErrorLine "API error: 500 - overloaded") ] |}).
Proof.
  apply (http_error_reported groq_config "sys" "hi" 500 "overloaded" [] (initial no_files));
    reflexivity.
Defined.

(** C6.  The code at the failing input: a failure status whose body
    contains [SIGINT] ends the outer loop, and no error is shown.  The
    test for an interrupt in the [catch] of [main] matches text that
    [callApi] copied from the reply of the server. *)
Lemma http_error_with_sigint_exits :
  exists st,
    iteration groq_config "sys" "hi" [HttpError 500 "SIGINT"] (initial no_files)
    = (Break, [], st)
    /\ List.filter (fun e => match e with EvLog (ErrorLine _) => true | _ => false end)
                   (trace st) = []
    /\ fst (main groq_config "/repo" ["hi"; "again"] [HttpError 500 "SIGINT"] no_files)
       = Exited.
Proof.
  eexists. split; [vm_compute; reflexivity|]. split; [reflexivity|].
  vm_compute. reflexivity.
Qed.

Lemma one_request_without_tool_use_witness :
  exists evs,
    iteration anthropic_config "sys" "hi"
      [HttpOk {| resp_choices := None; resp_content := Some [text_block "hello"] |}]
      (initial no_files)
    = (Continue, [],
       {| messages := [ {| role := user; content := Text "hi" |};
                        {| role := assistant; content := Blocks [text_block "hello"] |} ];
          world := no_files;
          trace := [EvLog Banner] ++ evs |})
    /\ List.length (fetches evs) = 1.
Proof.
  apply (one_request_without_tool_use anthropic_config "sys" "hi"
           {| resp_choices := None; resp_content := Some [text_block "hello"] |}
           [text_block "hello"] [] (initial no_files)); reflexivity.
Defined.

Lemma history_append_only_witness :
  Forall (fun msg => role msg = user \/ role msg = assistant)
         (messages (snd (main groq_config "/tmp" ["hi"; "/c"]
                              [HttpError 500 "overloaded"] no_files)))
  /\ (messages (clear (initial no_files)) = messages (initial no_files)
      \/ (exists msg, (role msg = user \/ role msg = assistant)
                      /\ messages (clear (initial no_files))
                         = messages (initial no_files) ++ [msg])
      \/ messages (clear (initial no_files)) = []).
Proof.
  destruct (history_append_only groq_config "/tmp" ["hi"; "/c"]
              [HttpError 500 "overloaded"] no_files) as (_ & Hroles & Hstep).
  split; [exact Hroles|].
  apply Hstep. apply step_clear.
Defined.

(** * Further runs *)

Example preview_examples :
  preview "ok" = "ok"
  /\ preview ("one" ++ String "010" "two" ++ String "010" "three") = "one ... +2 lines"
  /\ preview (String "010" EmptyString) = " ... +1 lines".
Proof. repeat split; vm_compute; reflexivity. Qed.


Lemma edit_all_by_itself_witness :
  editFile edit_same one_file = written edit_same "foo foo" one_file.
Proof.
  apply (edit_all_by_itself edit_same one_file "foo foo" "foo"); reflexivity.
Defined.

Lemma edit_all_makes_no_difference_witness :
  editFile edit_once_all one_file = editFile edit_once one_file.
Proof.
  apply (edit_all_makes_no_difference edit_once_all edit_once one_file
           "foo foo" "foo " "bar "); try reflexivity.
  discriminate.
Defined.

Lemma read_window_witness :
  readFile (JObj [("path", JStr "notes"); ("offset", JNum 1); ("limit", JNum 2)]) three_lines
  = (Ok (numbered 2 ["two"; "three"]), three_lines).
Proof.
  apply (read_window (JObj [("path", JStr "notes"); ("offset", JNum 1); ("limit", JNum 2)])
           three_lines ("one" ++ String "010" "two" ++ String "010" "three")%string 1 2);
    try reflexivity; lia.
Defined.

Lemma read_whole_file_witness :
  readFile (JObj [("path", JStr "notes")]) three_lines
  = (Ok (numbered 1 ["one"; "two"; "three"]), three_lines).
Proof.
  apply (read_whole_file (JObj [("path", JStr "notes")]) three_lines
           ("one" ++ String "010" "two" ++ String "010" "three")%string); reflexivity.
Defined.

Lemma searching_tools_are_read_only_witness :
  snd (runTool "grep" (JObj [("pat", JStr "t")]) three_lines) = three_lines.
Proof.
  apply (searching_tools_are_read_only "grep" (JObj [("pat", JStr "t")]) three_lines).
  right. right. left. reflexivity.
Defined.

Lemma only_read_answers_empty_witness :
  fst (runTool "bash" (JObj [("cmd", JStr "true")]) no_files) <> "".
Proof.
  apply (only_read_answers_empty "bash" (JObj [("cmd", JStr "true")]) no_files).
  discriminate.
Defined.

Lemma grep_never_searches_witness :
  runTool "grep" (JObj [("pat", JStr "t")]) three_lines
  = ("error: files is not iterable", three_lines).
Proof.
  destruct (grep_never_searches (JObj [("pat", JStr "t")]) three_lines)
    as (msg & _ & Hrun & Hmsg).
  rewrite Hrun.
  now rewrite (Hmsg (fun line => Js.includes line "t") "**/*" unawaited
                 eq_refl eq_refl eq_refl).
Defined.

Lemma glob_never_lists_witness :
  runTool "glob" (JObj [("pat", JStr "*.txt")]) one_file
  = ("error: files.sort is not a function", one_file).
Proof.
  destruct (glob_never_lists (JObj [("pat", JStr "*.txt")]) one_file)
    as (msg & _ & Hrun & Hmsg).
  rewrite Hrun.
  now rewrite (Hmsg "*.txt" unawaited eq_refl eq_refl).
Defined.

Lemma marker_decides_required_witness :
  (In "offset" (required (input_schema (tool_schema
       ("read", {| description := "Read file with line numbers (file path, not directory)";
                   params := [("path", "string"); ("offset", "number?"); ("limit", "number?")];
                   fn := readFile |}))))
   <-> "number?" = "number")
  /\ assoc "offset" (properties (input_schema (tool_schema
       ("read", {| description := "Read file with line numbers (file path, not directory)";
                   params := [("path", "string"); ("offset", "number?"); ("limit", "number?")];
                   fn := readFile |}))))
     = Some "integer".
Proof.
  apply (marker_decides_required "read"
           {| description := "Read file with line numbers (file path, not directory)";
              params := [("path", "string"); ("offset", "number?"); ("limit", "number?")];
              fn := readFile |}
           "offset" "number?" "number").
  - repeat constructor; simpl; intuition discriminate.
  - right. left. reflexivity.
  - reflexivity.
  - right. reflexivity.
Defined.

Lemma model_override_witness :
  model (getApiConfig model_set) = "tiny".
Proof.
  apply (model_override model_set "tiny"); [reflexivity|discriminate].
Defined.

Lemma provider_precedence_witness :
  provider (getApiConfig both_keys) = openrouter
  /\ url (getApiConfig both_keys) = "https://openrouter.ai/api/v1/messages"
  /\ both_keys "OPENROUTER_API_KEY" = Some (key (getApiConfig both_keys)).
Proof.
  apply (proj1 (provider_precedence both_keys)). reflexivity.
Defined.


Lemma decode_fails_on_unparseable_arguments_witness :
  decode groq_config
    (response_of_chat {| chat_role := "assistant"; chat_content := None;
                         tool_call_id := None;
                         tool_calls := Some [good_call; bad_call; good_call] |})
  = Throw "Unexpected token in JSON: {pat".
Proof.
  apply (decode_fails_on_unparseable_arguments groq_config _ []
           {| chat_role := "assistant"; chat_content := None; tool_call_id := None;
              tool_calls := Some [good_call; bad_call; good_call] |}
           [good_call] [good_call] bad_call).
  - reflexivity.
  - reflexivity.
  - reflexivity.
  - constructor; [|constructor]. exists (JObj []). vm_compute. reflexivity.
  - vm_compute. reflexivity.
Defined.

Lemma commands_send_nothing_witness :
  exists control evs,
    iteration groq_config "sys" "/c" glob_then_text (initial one_file)
    = (control, glob_then_text,
       {| messages := []; world := one_file; trace := [EvLog Banner] ++ evs |})
    /\ fetches evs = []
    /\ invocations evs = []
    /\ (control = Break <-> "/c" = "/q" \/ "/c" = "exit").
Proof.
  apply (commands_send_nothing groq_config "sys" "/c" glob_then_text (initial one_file)).
  reflexivity.
Defined.

Lemma tool_results_answer_the_previous_message_witness :
  [tool_result_block (Some "t1") "error: files.sort is not a function"] <> []
  /\ exists j contentBlocks,
       2 = S j
       /\ nth_error (messages (snd (main anthropic_config "/repo" ["list files"]
                                         glob_then_text no_files))) j
          = Some {| role := assistant; content := Blocks contentBlocks |}
       /\ List.map b_tool_use_id
            [tool_result_block (Some "t1") "error: files.sort is not a function"]
          = List.map b_id (List.filter is_tool_use contentBlocks).
Proof.
  apply (tool_results_answer_the_previous_message anthropic_config "/repo" ["list files"]
           glob_then_text no_files 2
           [tool_result_block (Some "t1") "error: files.sort is not a function"]).
  vm_compute. reflexivity.
Defined.

Lemma assistant_messages_follow_the_user_witness :
  exists j before,
    3 = S j
    /\ nth_error (messages (snd (main anthropic_config "/repo" ["list files"]
                                      glob_then_text no_files))) j
       = Some before
    /\ role before = user.
Proof.
  apply (assistant_messages_follow_the_user anthropic_config "/repo" ["list files"]
           glob_then_text no_files 3
           {| role := assistant; content := Blocks [text_block "none found"] |}).
  - vm_compute. reflexivity.
  - reflexivity.
Defined.

Lemma every_request_ends_with_the_user_witness :
  exists history,
    request_of [ {| role := user; content := Text "list files" |} ]
               "Concise coding assistant. cwd: /repo" anthropic_config
    = request_of history "Concise coding assistant. cwd: /repo" anthropic_config
    /\ ends_with_user history.
Proof.
  apply (every_request_ends_with_the_user anthropic_config "/repo" ["list files"]
           glob_then_text no_files).
  vm_compute. left. reflexivity.
Defined.

Lemma nothing_is_read_after_quit_witness :
  main_loop groq_config "sys" ["/c"; "/q"; "hi"] glob_then_text (initial no_files)
  = main_loop groq_config "sys" ["/c"; "/q"] glob_then_text (initial no_files)
  /\ fst (main_loop groq_config "sys" ["/c"; "/q"; "hi"] glob_then_text (initial no_files))
     <> AwaitingUserInput.
Proof.
  apply (nothing_is_read_after_quit groq_config "sys" "/q" ["/c"] ["hi"]).
  left. reflexivity.
Defined.

Lemma empty_reply_ends_the_turn_witness :
  iteration groq_config "sys" "hi"
    [HttpOk {| resp_choices := Some []; resp_content := None |}] (initial no_files)
  = (Continue, [],
     {| messages := [ {| role := user; content := Text "hi" |};
                      {| role := assistant; content := Blocks [] |} ];
        world := no_files;
        trace := [ EvLog Banner; EvLog Separator; EvLog Separator;
                   EvPush {| role := user; content := Text "hi" |};
                   EvFetch (request_of [ {| role := user; content := Text "hi" |} ]
                                       "sys" groq_config);
                   EvPush {| role := assistant; content := Blocks [] |};
                   EvLog BlankLine ] |}).
Proof.
  apply (empty_reply_ends_the_turn groq_config "sys" "hi"
           {| resp_choices := Some []; resp_content := None |} [] (initial no_files)).
  - reflexivity.
  - right. left. reflexivity.
  - reflexivity.
Defined.

Lemma failure_keeps_the_turn_so_far_witness :
  exists evs,
    iteration anthropic_config "sys" "save it"
      [ HttpOk {| resp_choices := None; resp_content := Some [write_call] |};
        HttpError 529 "overloaded" ]
      (initial no_files)
    = (Continue, [],
       {| messages := [ {| role := user; content := Text "save it" |};
                        {| role := assistant; content := Blocks [write_call] |};
                        {| role := user;
                           content := Blocks [tool_result_block (Some "t1") "ok"] |} ];
          world := (<["b.txt" := "new"]> (∅ : gmap string string) : @World Mem.platform);
          trace := [EvLog Banner] ++ evs
                   ++ [ EvLog (ErrorLine "API error: 529 - overloaded") ] |})
    /\ List.length (fetches evs) = 2.
Proof.
  apply (failure_keeps_the_turn_so_far anthropic_config "sys" "save it"
           {| resp_choices := None; resp_content := Some [write_call] |} [write_call]
           529 "overloaded" [] (initial no_files)).
  - reflexivity.
  - reflexivity.
  - discriminate.
  - reflexivity.
  - reflexivity.
Defined.

Lemma preview_counts_line_breaks_witness :
  preview ("one" ++ String "010" "two" ++ String "010" "three") = "one ... +2 lines".
Proof.
  apply (proj2 (proj2 (preview_counts_line_breaks
                         ("one" ++ String "010" "two" ++ String "010" "three")))).
  vm_compute. lia.
Defined.
